(** * deepqmc.utils: the hierarchical containers [NestedDict] and
      [DebugContainer]

    A shallow embedding of the two mapping classes of
    [src/deepqmc/utils.py] and the properties their description states.

    Python objects are modelled as trees: a mapping is its list of items in
    insertion order (the order a Python [dict] iterates in), a nested mapping
    is a value of its parent, and a method that mutates [self] returns the
    new [self] next to its outcome.  A method that mutates a child writes the
    new child back under the key it was read from.  Exceptions are outcomes:
    the state a method leaves behind when it raises is part of the result.

    Two things of Python are left out.  An object that is reachable under
    two keys is two values here, so a change made through one key does not
    show under the other; no statement below depends on such sharing.  And
    the methods that call themselves along a key are total functions, by
    recursion on the length of the key, while [update], which calls itself
    along the argument and along the plain dicts it converts, carries the
    bound on the depth of nested calls that the interpreter imposes. *)

From Equations Require Import Equations.
From Stdlib Require Import List String Ascii ZArith Lia Bool Arith.
From Stdlib Require Import DecimalString.
Import ListNotations.
Open Scope string_scope.
Set Warnings "-register-all".

(** ** Outcomes *)

Inductive exn : Type :=
| KeyError (k : string)
| TypeError
| AttributeError
| IndexError
| AssertionError
| RecursionError.

Inductive res (A : Type) : Type :=
| Ok (a : A)
| Raise (e : exn).
Arguments Ok {A} a.
Arguments Raise {A} e.

(** ** Items of a Python [dict], in insertion order *)

(** Keys are compared with a decidable equality, as [dict] compares them by
    [==]. *)
Class Key (K : Type) : Type := {
  key_eqb : K -> K -> bool;
  key_eqb_eq : forall a b : K, key_eqb a b = true <-> a = b
}.

#[export] Instance string_Key : Key string :=
  {| key_eqb := String.eqb; key_eqb_eq := String.eqb_eq |}.

Section Items.
Context {K V : Type} `{Key K}.

(** [dict.__getitem__]: [None] stands for [KeyError]. *)
Fixpoint dict_get (k : K) (d : list (K * V)) : option V :=
  match d with
  | [] => None
  | (k', v) :: d' => if key_eqb k k' then Some v else dict_get k d'
  end.

(** [dict.__setitem__]: an existing key keeps its place, a new key goes
    last. *)
Fixpoint dict_set (k : K) (v : V) (d : list (K * V)) : list (K * V) :=
  match d with
  | [] => [(k, v)]
  | (k', v') :: d' =>
      if key_eqb k k' then (k, v) :: d' else (k', v') :: dict_set k v d'
  end.

(** [dict.__delitem__]: [None] stands for [KeyError]. *)
Fixpoint dict_del (k : K) (d : list (K * V)) : option (list (K * V)) :=
  match d with
  | [] => None
  | (k', v') :: d' =>
      if key_eqb k k' then Some d'
      else match dict_del k d' with
           | Some d'' => Some ((k', v') :: d'')
           | None => None
           end
  end.

(** [key in dict] *)
Definition dict_contains (k : K) (d : list (K * V)) : bool :=
  match dict_get k d with Some _ => true | None => false end.

(** [dict.update(other)] of a plain [dict] *)
Fixpoint dict_update (d other : list (K * V)) : list (K * V) :=
  match other with
  | [] => d
  | (k, v) :: other' => dict_update (dict_set k v d) other'
  end.

End Items.

(** ** NestedDict *)

Module NestedDict.

(** Values that are not mappings: they cannot be subscripted with a string
    and have no [update]. *)
Inductive atom : Type :=
| AInt (z : Z)
| AStr (s : string)
| ANone.

(** What a mapping can hold: a non-mapping value, a plain [dict], or a
    [NestedDict] (itself a [dict]). *)
Inductive value : Type :=
| VLeaf (a : atom)
| VDict (items : list (string * value))
| VNested (items : list (string * value)).

Definition items : Type := list (string * value).

(** [isinstance(v, dict)] *)
Definition is_dict (v : value) : bool :=
  match v with VLeaf _ => false | VDict _ | VNested _ => true end.

(** [isinstance(v, NestedDict)] *)
Definition is_NestedDict (v : value) : bool :=
  match v with VNested _ => true | _ => false end.

Definition dot : ascii := "."%char.

(** [key.split('.', 1)] followed by the repacking of [_split_key]: the part
    before the first dot, and the part after it when there is a dot. *)
Fixpoint _split_key (key : string) : string * option string :=
  match key with
  | EmptyString => (EmptyString, None)
  | String c s =>
      if Ascii.eqb c dot then (EmptyString, Some s)
      else let (k, nested_key) := _split_key s in (String c k, nested_key)
  end.

(** Truth value of [nested_key] in [if nested_key:]: [None] and the empty
    string are false. *)
Definition truthy (nested_key : option string) : bool :=
  match nested_key with
  | None => false
  | Some s => negb (String.eqb s EmptyString)
  end.

Lemma _split_key_shorter key k r :
  _split_key key = (k, Some r) -> String.length r < String.length key.
Proof.
  revert k r. induction key as [|c s IH]; intros k r H; simpl in H.
  - discriminate.
  - destruct (Ascii.eqb c dot).
    + injection H as _ <-. simpl. lia.
    + destruct (_split_key s) as [k' nk] eqn:E. injection H as _ ->.
      specialize (IH _ _ eq_refl). simpl. lia.
Qed.

Definition inspect {A : Type} (x : A) : {y : A | x = y} := exist _ x eq_refl.

(** The [try: super().__getitem__(key) except KeyError: ...] of
    [__getitem__]: the stored value, or a new empty [NestedDict] that is
    stored first. *)
Definition get_or_create (self : items) (key : string) : items * value :=
  match dict_get key self with
  | Some val => (self, val)
  | None => (dict_set key (VNested []) self, VNested [])
  end.

(** [NestedDict.__getitem__].  In [val[nested_key]] the value found at the
    first segment decides what the lookup does: another [NestedDict] runs
    this method, a plain [dict] looks up the unsplit rest of the key, and
    anything else cannot be subscripted with a string. *)
Equations __getitem__ (self : items) (key : string) : items * res value
  by wf (String.length key) lt :=
__getitem__ self key with inspect (_split_key key) := {
  | exist _ (k, None) _ =>
      let (self1, val) := get_or_create self k in (self1, Ok val)
  | exist _ (k, Some nested_key) e =>
      let (self1, val) := get_or_create self k in
      if truthy (Some nested_key) then
        match val with
        | VNested child =>
            let (child', r) := __getitem__ child nested_key in
            (dict_set k (VNested child') self1, r)
        | VDict child =>
            match dict_get nested_key child with
            | Some v => (self1, Ok v)
            | None => (self1, Raise (KeyError nested_key))
            end
        | VLeaf _ => (self1, Raise TypeError)
        end
      else (self1, Ok val) }.
Next Obligation. eapply _split_key_shorter; eauto. Qed.

(** [NestedDict.__setitem__].  In [self[key][nested_key] = val] the value
    that [self[key]] returns decides what the assignment does: another
    [NestedDict] runs this method, a plain [dict] stores under the unsplit
    rest of the key, anything else does not support item assignment. *)
Equations __setitem__ (self : items) (key : string) (val : value)
  : items * res unit by wf (String.length key) lt :=
__setitem__ self key val with inspect (_split_key key) := {
  | exist _ (k, None) _ => (dict_set k val self, Ok tt)
  | exist _ (k, Some nested_key) e =>
      if truthy (Some nested_key) then
        match __getitem__ self k with
        | (self1, Ok (VNested child)) =>
            let (child', r) := __setitem__ child nested_key val in
            (dict_set k (VNested child') self1, r)
        | (self1, Ok (VDict child)) =>
            (dict_set k (VDict (dict_set nested_key val child)) self1, Ok tt)
        | (self1, Ok (VLeaf _)) => (self1, Raise TypeError)
        | (self1, Raise ex) => (self1, Raise ex)
        end
      else (dict_set k val self, Ok tt) }.
Next Obligation. eapply _split_key_shorter; eauto. Qed.

(** [NestedDict.__delitem__]: the value at the head is read with the base
    class accessor, which raises [KeyError] on a missing key. *)
Equations __delitem__ (self : items) (key : string) : items * res unit
  by wf (String.length key) lt :=
__delitem__ self key with inspect (_split_key key) := {
  | exist _ (k, None) _ =>
      match dict_del k self with
      | Some self' => (self', Ok tt)
      | None => (self, Raise (KeyError k))
      end
  | exist _ (k, Some nested_key) e =>
      if truthy (Some nested_key) then
        match dict_get k self with
        | None => (self, Raise (KeyError k))
        | Some (VNested child) =>
            let (child', r) := __delitem__ child nested_key in
            (dict_set k (VNested child') self, r)
        | Some (VDict child) =>
            match dict_del nested_key child with
            | Some child' => (dict_set k (VDict child') self, Ok tt)
            | None => (self, Raise (KeyError nested_key))
            end
        | Some (VLeaf _) => (self, Raise TypeError)
        end
      else
        match dict_del k self with
        | Some self' => (self', Ok tt)
        | None => (self, Raise (KeyError k))
        end }.
Next Obligation. eapply _split_key_shorter; eauto. Qed.

(** The items of a mapping value, for [other.items()]. *)
Definition items_of (v : value) : items :=
  match v with VLeaf _ => [] | VDict d | VNested d => d end.

Section Update.
(** [upd self other] stands for a call of [NestedDict.update] one level
    deeper in the call stack. *)
Variable upd : items -> items -> items * res unit.

(** [NestedDict(dct)]: [__init__] calls [update] when [dct] is not
    empty. *)
Definition __init__ (dct : items) : items * res unit :=
  match dct with
  | [] => ([], Ok tt)
  | _ :: _ => upd [] dct
  end.

(** [super().__getitem__(key).update(val)]: the method that runs is the
    one of the value found under the unsplit key. *)
Definition update_child (self : items) (key : string) (val : value)
  : items * res unit :=
  match dict_get key self with
  | None => (self, Raise (KeyError key))
  | Some (VNested child) =>
      let (child', r) := upd child (items_of val) in
      (dict_set key (VNested child') self, r)
  | Some (VDict child) =>
      (dict_set key (VDict (dict_update child (items_of val))) self, Ok tt)
  | Some (VLeaf _) => (self, Raise AttributeError)
  end.

(** The body of the [for key, val in other.items()] loop. *)
Definition update_item (self : items) (key : string) (val : value)
  : items * res unit :=
  if is_dict val then
    match __getitem__ self key with
    | (self1, Raise ex) => (self1, Raise ex)
    | (self1, Ok x1) =>
        if negb (is_NestedDict x1) then
          match __getitem__ self1 key with
          | (self2, Raise ex) => (self2, Raise ex)
          | (self2, Ok x2) =>
              if is_dict x2 then
                match __getitem__ self2 key with
                | (self3, Raise ex) => (self3, Raise ex)
                | (self3, Ok x3) =>
                    match __init__ (items_of x3) with
                    | (_, Raise ex) => (self3, Raise ex)
                    | (new, Ok _) =>
                        match __setitem__ self3 key (VNested new) with
                        | (self4, Raise ex) => (self4, Raise ex)
                        | (self4, Ok _) => update_child self4 key val
                        end
                    end
                end
              else
                match __setitem__ self2 key (VNested []) with
                | (self3, Raise ex) => (self3, Raise ex)
                | (self3, Ok _) => update_child self3 key val
                end
          end
        else update_child self1 key val
    end
  else (dict_set key val self, Ok tt).

(** The loop itself: the first exception ends it. *)
Fixpoint update_loop (self : items) (other : items) : items * res unit :=
  match other with
  | [] => (self, Ok tt)
  | (key, val) :: other' =>
      match update_item self key val with
      | (self', Ok _) => update_loop self' other'
      | (self', Raise ex) => (self', Raise ex)
      end
  end.
End Update.

(** [NestedDict.update], with the interpreter's bound on the depth of
    nested calls made explicit: a call that would exceed it raises
    [RecursionError]. *)
Fixpoint update (limit : nat) (self other : items) : items * res unit :=
  match limit with
  | O => (self, Raise RecursionError)
  | S limit' => update_loop (update limit') self other
  end.

End NestedDict.

(** ** DebugContainer *)

Module DebugContainer.

(** A [torch.Tensor], as far as storing it is concerned: its numbers,
    whether it is part of a computation graph, and where it lives. *)
Inductive device : Type :=
| CPU
| CUDA (index : nat).

Record Tensor : Type := {
  numbers : list Z;
  in_graph : bool;
  where_ : device
}.

(** [Tensor.detach()] *)
Definition detach (t : Tensor) : Tensor :=
  {| numbers := numbers t; in_graph := false; where_ := where_ t |}.

(** [Tensor.cpu()] *)
Definition cpu (t : Tensor) : Tensor :=
  {| numbers := numbers t; in_graph := in_graph t; where_ := CPU |}.

(** A key given to a container or held by its mapping: an [int] or a
    [str]. *)
Inductive key : Type :=
| KInt (z : Z)
| KStr (s : string).

Definition key_eq (a b : key) : bool :=
  match a, b with
  | KInt x, KInt y => Z.eqb x y
  | KStr x, KStr y => String.eqb x y
  | _, _ => false
  end.

Lemma key_eq_eq (a b : key) : key_eq a b = true <-> a = b.
Proof.
  destruct a as [x|x], b as [y|y]; simpl; split; intros E;
    try discriminate; try (injection E as ->).
  - apply Z.eqb_eq in E. now subst.
  - apply Z.eqb_refl.
  - apply String.eqb_eq in E. now subst.
  - apply String.eqb_refl.
Qed.

#[export] Instance key_Key : Key key :=
  {| key_eqb := key_eq; key_eqb_eq := key_eq_eq |}.

(** The two classes: [_NullDebug] inherits everything but [__setitem__]. *)
Inductive class : Type :=
| DebugContainer
| _NullDebug.

(** A stored value: a tensor, a container (what [__getitem__] creates), or
    any other object. *)
Inductive value : Type :=
| VTensor (t : Tensor)
| VContainer (cls : class) (data : list (key * value)) (_levels : list string)
| VOther (o : Z).

(** An instance: its class, [self.data] of [UserDict], and
    [self._levels]. *)
Record container : Type := {
  cls : class;
  data : list (key * value);
  _levels : list string
}.

(** [cls()] *)
Definition new (c : class) : container :=
  {| cls := c; data := []; _levels := [] |}.

Definition as_value (c : container) : value :=
  VContainer (cls c) (data c) (_levels c).

Definition with_data (self : container) (d : list (key * value)) : container :=
  {| cls := cls self; data := d; _levels := _levels self |}.

Definition with_levels (self : container) (l : list string) : container :=
  {| cls := cls self; data := data self; _levels := l |}.

(** [str(key)] *)
Definition str (k : key) : string :=
  match k with
  | KInt z => NilZero.string_of_int (Z.to_int z)
  | KStr s => s
  end.

(** ['.'.join(parts)] *)
Definition join (parts : list string) : string := String.concat "." parts.

(** [list.pop()]: the last element and the list without it; [None] stands
    for [IndexError]. *)
Definition pop (l : list string) : option (list string * string) :=
  match rev l with
  | [] => None
  | x :: r => Some (rev r, x)
  end.

(** What the body of a [with] statement does to the container: the state it
    leaves and whether it raised. *)
Definition block : Type := container -> container * res unit.

(** [DebugContainer.cd], around a body: [append], the body, and the
    [finally] clause, which runs however the body ends. *)
Definition cd (self : container) (label : string) (body : block)
  : container * res unit :=
  let (self1, r) := body (with_levels self (_levels self ++ [label])) in
  match pop (_levels self1) with
  | None => (self1, Raise IndexError)
  | Some (rest, popped) =>
      if String.eqb label popped then (with_levels self1 rest, r)
      else (with_levels self1 rest, Raise AssertionError)
  end.

(** [DebugContainer._getkey] *)
Definition _getkey (self : container) (k : key) : key :=
  match k, _levels self with
  | KInt _, [] => k
  | _, _ => KStr (join (_levels self ++ [str k]))
  end.

(** [UserDict.__setitem__], what [super().__setitem__] is in
    [DebugContainer]. *)
Definition UserDict__setitem__ (self : container) (k : key) (val : value)
  : container :=
  with_data self (dict_set k val (data self)).

(** [self.__setitem__(key, val)]: the method of the instance's class. *)
Definition __setitem__ (self : container) (k : key) (val : value)
  : container :=
  match cls self with
  | _NullDebug => self
  | DebugContainer =>
      let val :=
        match val with
        | VTensor t => VTensor (cpu (detach t))
        | _ => val
        end in
      UserDict__setitem__ self (_getkey self k) val
  end.

(** [DebugContainer.__getitem__] *)
Definition __getitem__ (self : container) (k : key) : container * value :=
  let k := _getkey self k in
  match dict_get k (data self) with
  | Some val => (self, val)
  | None =>
      let val := as_value (new (cls self)) in
      (__setitem__ self k val, val)
  end.

(** [DebugContainer.result] *)
Definition result (self : container) (val : value) : container * value :=
  (UserDict__setitem__ self (KStr (join (_levels self))) val, val).

(** Statements a body can run on the container. *)
Inductive stmt : Type :=
| Assign (k : key) (val : value)
| Lookup (k : key)
| Result (val : value)
| RaiseStmt (e : exn)
| WithCd (label : string) (body : list stmt).

Fixpoint exec (s : stmt) (self : container) : container * res unit :=
  match s with
  | Assign k val => (__setitem__ self k val, Ok tt)
  | Lookup k => (fst (__getitem__ self k), Ok tt)
  | Result val => (fst (result self val), Ok tt)
  | RaiseStmt e => (self, Raise e)
  | WithCd label body =>
      cd self label
        ((fix exec_body (b : list stmt) (c : container) : container * res unit :=
            match b with
            | [] => (c, Ok tt)
            | s' :: b' =>
                match exec s' c with
                | (c', Ok _) => exec_body b' c'
                | (c', Raise e) => (c', Raise e)
                end
            end) body)
  end.

Fixpoint exec_body (b : list stmt) (c : container) : container * res unit :=
  match b with
  | [] => (c, Ok tt)
  | s :: b' =>
      match exec s c with
      | (c', Ok _) => exec_body b' c'
      | (c', Raise e) => (c', Raise e)
      end
  end.

(** Induction over programs, with the hypothesis for every statement of a
    [with] body. *)
Section StmtInduction.
Variable P : stmt -> Prop.
Hypothesis HAssign : forall k val, P (Assign k val).
Hypothesis HLookup : forall k, P (Lookup k).
Hypothesis HResult : forall val, P (Result val).
Hypothesis HRaise : forall e, P (RaiseStmt e).
Hypothesis HWith : forall label body, Forall P body -> P (WithCd label body).

Fixpoint stmt_nested_ind (s : stmt) : P s :=
  match s with
  | Assign k val => HAssign k val
  | Lookup k => HLookup k
  | Result val => HResult val
  | RaiseStmt e => HRaise e
  | WithCd label body =>
      HWith label body
        ((fix all (b : list stmt) : Forall P b :=
            match b with
            | [] => Forall_nil P
            | s' :: b' => Forall_cons s' (stmt_nested_ind s') (all b')
            end) body)
  end.
End StmtInduction.

End DebugContainer.

(** ** Vocabulary of the statements *)

Section Vocabulary.
Import NestedDict.

(** [nested_along d key]: following [key] through [d], segment by segment
    as [__getitem__] does, every value met before the last segment is a
    [NestedDict]; a segment that is missing ends the condition, since what
    is created from there on is new. *)
Inductive nested_along : items -> string -> Prop :=
| along_last d key k nk :
    _split_key key = (k, nk) -> truthy nk = false -> nested_along d key
| along_absent d key k r :
    _split_key key = (k, Some r) -> truthy (Some r) = true ->
    dict_get k d = None -> nested_along [] r -> nested_along d key
| along_step d key k r c :
    _split_key key = (k, Some r) -> truthy (Some r) = true ->
    dict_get k d = Some (VNested c) -> nested_along c r ->
    nested_along d key.

(** [absent_along d key]: following [key] through [d] in the same way, a
    segment is missing from the [NestedDict] that the segments before it
    lead to: the key is absent, and nothing but [NestedDict]s stands before
    the place where it is. *)
Inductive absent_along : items -> string -> Prop :=
| absent_last d key k nk :
    _split_key key = (k, nk) -> truthy nk = false ->
    dict_get k d = None -> absent_along d key
| absent_head d key k r :
    _split_key key = (k, Some r) -> truthy (Some r) = true ->
    dict_get k d = None -> absent_along d key
| absent_step d key k r c :
    _split_key key = (k, Some r) -> truthy (Some r) = true ->
    dict_get k d = Some (VNested c) -> absent_along c r ->
    absent_along d key.

(** [no_dot key]: the key has a single segment. *)
Definition no_dot (key : string) : bool :=
  match snd (_split_key key) with
  | None => true
  | Some _ => false
  end.

(** [dicts_dotfree v]: at every depth of [v], a key that holds a mapping has
    no dot. *)
Fixpoint dicts_dotfree (v : value) : bool :=
  match v with
  | VLeaf _ => true
  | VDict d | VNested d =>
      forallb (fun kv => (negb (is_dict (snd kv)) || no_dot (fst kv))
                         && dicts_dotfree (snd kv)) d
  end.

Definition items_dotfree (d : items) : bool := dicts_dotfree (VNested d).

(** [plain_dotfree v]: in every plain [dict] held in [v], at any depth, a key
    that holds a mapping has no dot, at every depth of that [dict]. *)
Fixpoint plain_dotfree (v : value) : bool :=
  match v with
  | VLeaf _ => true
  | VDict d => dicts_dotfree (VDict d)
  | VNested d => forallb (fun kv => plain_dotfree (snd kv)) d
  end.

Definition items_convertible (d : items) : bool := plain_dotfree (VNested d).

(** Depth of nesting of a value: 0 for a value that is not a mapping. *)
Fixpoint vdepth (v : value) : nat :=
  match v with
  | VLeaf _ => 0
  | VDict d | VNested d => S (list_max (map (fun kv => vdepth (snd kv)) d))
  end.

Definition items_depth (d : items) : nat :=
  list_max (map (fun kv => vdepth (snd kv)) d).

(** Depth of the deepest plain [dict] held, at any depth, in a value: 0 when
    every mapping in it is a [NestedDict]. *)
Fixpoint plain_depth (v : value) : nat :=
  match v with
  | VLeaf _ => 0
  | VDict d => S (list_max (map (fun kv => vdepth (snd kv)) d))
  | VNested d => list_max (map (fun kv => plain_depth (snd kv)) d)
  end.

Definition items_plain_depth (d : items) : nat := plain_depth (VNested d).

(** The keys of a mapping are distinct. *)
Definition distinct_keys (d : items) : Prop := NoDup (map fst d).

(** The [NestedDict] a mapping value is merged into: the one that is there,
    the conversion of the plain [dict] that is there, or a new one. *)
Definition merge_target (upd : items -> items -> items * res unit)
    (s : items) (k : string) (c0 : items) : Prop :=
  match dict_get k s with
  | Some (VNested c) => c0 = c
  | Some (VDict p) => __init__ upd p = (c0, Ok tt)
  | Some (VLeaf _) | None => c0 = []
  end.

(** What a successful [update] has done to the mapping: keys that are not
    in the argument are as before; a key paired with a value that is not a
    mapping holds that value; a key paired with a mapping holds the
    [NestedDict] that the merge one level down produced. *)
Definition merged (upd : items -> items -> items * res unit)
    (s other s' : items) : Prop :=
  (forall x, ~ In x (map fst other) -> dict_get x s' = dict_get x s) /\
  (distinct_keys other ->
   forall k v, In (k, v) other ->
     if is_dict v then
       exists c0 c',
         merge_target upd s k c0 /\
         items_convertible c0 = true /\
         items_plain_depth c0 <= items_plain_depth s /\
         upd c0 (items_of v) = (c', Ok tt) /\
         dict_get k s' = Some (VNested c')
     else dict_get k s' = Some v).

End Vocabulary.

(** A tensor is safe to keep when it is out of any graph and on the host. *)
Definition detached_on_host (v : DebugContainer.value) : Prop :=
  match v with
  | DebugContainer.VTensor t =>
      DebugContainer.in_graph t = false /\
      DebugContainer.where_ t = DebugContainer.CPU
  | _ => True
  end.

(** A program that writes with [debug[k] = val] only. *)
Definition writes_by_assignment_only (prog : list DebugContainer.stmt) : Prop :=
  Forall (fun s => match s with
                   | DebugContainer.Assign _ _ | DebugContainer.Lookup _ => True
                   | _ => False
                   end) prog.


(** ** More vocabulary *)

Section MoreVocabulary.
Import NestedDict.

(** [all_nested v]: [v] holds no plain [dict], at any depth. *)
Fixpoint all_nested (v : value) : bool :=
  match v with
  | VLeaf _ => true
  | VDict _ => false
  | VNested d => forallb (fun kv => all_nested (snd kv)) d
  end.

(** Induction over values, with the hypothesis for every value held. *)
Section ValueInduction.
Variable P : value -> Prop.
Hypothesis HLeaf : forall a, P (VLeaf a).
Hypothesis HDict :
  forall d, Forall (fun kv => P (snd kv)) d -> P (VDict d).
Hypothesis HNested :
  forall d, Forall (fun kv => P (snd kv)) d -> P (VNested d).

Fixpoint value_nested_ind (v : value) : P v :=
  let all :=
    fix all (d : list (string * value)) : Forall (fun kv => P (snd kv)) d :=
      match d with
      | [] => Forall_nil _
      | kv :: d' => Forall_cons kv (value_nested_ind (snd kv)) (all d')
      end in
  match v with
  | VLeaf a => HLeaf a
  | VDict d => HDict d (all d)
  | VNested d => HNested d (all d)
  end.
End ValueInduction.

End MoreVocabulary.

(** ** Callers of DebugContainer *)

Section Callers.
Import DebugContainer.

(** [debugged(func, label)], for the arguments of one call: [func] is what
    the wrapped function does to the container it is given.  The wrapper
    makes a new [DebugContainer], runs the function on it, drops what the
    function returns, and returns [debug[label]]. *)
Definition debugged (func : block) (label : key) : res value :=
  let (debug, r) := func (new DebugContainer) in
  match r with
  | Raise e => Raise e
  | Ok _ => Ok (snd (__getitem__ debug label))
  end.

(** The exceptions that the [raise] statements of a program name. *)
Fixpoint raised (s : stmt) : list exn :=
  match s with
  | RaiseStmt e => [e]
  | WithCd _ body => flat_map raised body
  | _ => []
  end.

(** [with debug.cd(l1): with debug.cd(l2): ... body] *)
Fixpoint nest (labels : list string) (body : list stmt) : list stmt :=
  match labels with
  | [] => body
  | l :: labels' => [WithCd l (nest labels' body)]
  end.

End Callers.

(** ** The helpers on tensors *)

(** A tensor is modelled along its first dimension, as the list of its rows
    (its elements, for a tensor of one dimension); what the rows are made of
    is left open, so nothing below depends on the arithmetic of floats. *)
Module Torch.

(** The errors of the library that the helpers can meet.  [RuntimeError] is
    raised for shapes that do not fit and for a power that the dtype does
    not have.  [NoTensors] stands for the refusal of [torch.cat] of no tensor
    at all: the class of that error is the library's choice and has not been
    the same in all its versions ([RuntimeError], [ValueError]), so it is
    given no class here. *)
Inductive error : Type :=
| RuntimeError
| NoTensors.

(** What a call into the library gives: a value, or an error. *)
Inductive outcome (A : Type) : Type :=
| Returns (a : A)
| Raises (e : error).
Arguments Returns {A} a.
Arguments Raises {A} e.

Section Tensors.
Context {A : Type}.

(** [torch.cat(tensors)] along the first dimension: the rows of all the
    tensors in order; an empty list of tensors is refused. *)
Definition cat (tensors : list (list A)) : outcome (list A) :=
  match tensors with
  | [] => Raises NoTensors
  | _ :: _ => Returns (List.concat tensors)
  end.

(** [x[mask]] for a boolean mask as long as [x]: the elements where the mask
    is true, in order. *)
Fixpoint select (mask : list bool) (x : list A) : list A :=
  match mask, x with
  | m :: mask', a :: x' =>
      if m then a :: select mask' x' else select mask' x'
  | _, _ => []
  end.

(** [x[mask] = vals] for a boolean mask as long as [x]: the elements where
    the mask is true are replaced by the values, in order. *)
Fixpoint scatter (mask : list bool) (x vals : list A) : list A :=
  match mask, x with
  | m :: mask', a :: x' =>
      if m then
        match vals with
        | v :: vals' => v :: scatter mask' x' vals'
        | [] => a :: scatter mask' x' []
        end
      else a :: scatter mask' x' vals
  | _, _ => x
  end.

(** [x.expand_as(z)] for tensors of one dimension: [x] itself when it is
    as long as [z], its one element repeated when it has one, and an error
    otherwise. *)
Definition expand_as (x : list A) (n : nat) : outcome (list A) :=
  if Nat.eqb (List.length x) n then Returns x
  else match x with
       | [a] => Returns (repeat a n)
       | _ => Raises RuntimeError
       end.

End Tensors.

(** [batch_eval(func, batches)], for the arguments of one call. *)
Definition batch_eval {A B : Type} (func : list A -> list B)
    (batches : list (list A)) : outcome (list B) :=
  cat (map func batches).

(** [zip] applied to the unpacked tuples: the first elements of all the
    tuples, then the second ones, and so on, as far as the shortest tuple
    goes. *)
Fixpoint zip_star {X : Type} (tuples : list (list X)) : list (list X) :=
  match tuples with
  | [] => []
  | [t] => map (fun x => [x]) t
  | t :: tuples' =>
      map (fun p => fst p :: snd p) (combine t (zip_star tuples'))
  end.

(** [tuple(torch.cat(result) for result in results)]: the first error ends
    it. *)
Fixpoint cat_each {B : Type} (results : list (list (list B)))
  : outcome (list (list B)) :=
  match results with
  | [] => Returns []
  | r :: results' =>
      match cat r with
      | Raises e => Raises e
      | Returns t =>
          match cat_each results' with
          | Raises e => Raises e
          | Returns ts => Returns (t :: ts)
          end
      end
  end.

(** [batch_eval_tuple(func, batches)]: [func] returns a tuple of tensors. *)
Definition batch_eval_tuple {A B : Type} (func : list A -> list (list B))
    (batches : list (list A)) : outcome (list (list B)) :=
  cat_each (zip_star (map func batches)).

(** [exps.unique()]: the values of [exps], each once, in ascending order. *)
Fixpoint insert_unique (e : Z) (sorted : list Z) : list Z :=
  match sorted with
  | [] => [e]
  | e' :: sorted' =>
      if Z.ltb e e' then e :: sorted
      else if Z.eqb e e' then sorted
      else e' :: insert_unique e sorted'
  end.

Definition unique (exps : list Z) : list Z :=
  fold_right insert_unique [] exps.

Section PowInt.
Context {A : Type}.
(** The dtype of [xs]: its power [x ** e] for an exponent that it takes,
    whether it takes the exponent [e], and the zero of [new_zeros].  A tensor
    to the power of a number is refused as a whole, with [RuntimeError], when
    the dtype is one of integers and the exponent is negative, whatever the
    elements are; a dtype of floats takes every exponent. *)
Variable pow : A -> Z -> A.
Variable allows : Z -> bool.
Variable zero : A.

(** The assignment in the loop of [pow_int], for the exponent [exp]. *)
Definition pow_int_step (xs_expanded : list A) (exps : list Z)
    (zs : list A) (exp : Z) : list A :=
  let mask := map (fun e => Z.eqb e exp) exps in
  scatter mask zs (map (fun x => pow x exp) (select mask xs_expanded)).

(** The loop of [pow_int] over the exponents still to come. *)
Fixpoint pow_int_loop (xs_expanded : list A) (exps : list Z)
    (todo : list Z) (zs : list A) : outcome (list A) :=
  match todo with
  | [] => Returns zs
  | exp :: todo' =>
      if allows exp then
        pow_int_loop xs_expanded exps todo'
          (pow_int_step xs_expanded exps zs exp)
      else Raises RuntimeError
  end.

(** [pow_int(xs, exps)] for tensors of one dimension, [exps] one of
    integers. *)
Definition pow_int (xs : list A) (exps : list Z) : outcome (list A) :=
  let zs := repeat zero (List.length exps) in
  match expand_as xs (List.length zs) with
  | Raises e => Raises e
  | Returns xs_expanded => pow_int_loop xs_expanded exps (unique exps) zs
  end.
End PowInt.

(** The dtype [torch.int64]: the integers from [-2^63] to [2^63 - 1], with
    arithmetic that wraps around; negative exponents are refused. *)
Definition wrap_int64 (z : Z) : Z := (z + 2 ^ 63) mod 2 ^ 64 - 2 ^ 63.

Definition int64_pow (x e : Z) : Z := wrap_int64 (x ^ e).

Definition int64_allows (e : Z) : bool := (0 <=? e)%Z.

(** [assign_where(xs, ys, where)] for tensors of one dimension and a boolean
    mask: the tensors of [xs] afterwards, and how the call ended.  A mask
    that is not as long as the tensor it indexes is an [IndexError]; the
    tensors assigned before it stay assigned.  The tensors of [xs] are taken
    to be distinct objects that share no storage with each other or with
    those of [ys]: each is assigned once, from a tensor no earlier turn has
    changed. *)
Fixpoint assign_loop {A : Type} (pairs : list (list A * list A))
    (where_ : list bool) : list (list A) * res unit :=
  match pairs with
  | [] => ([], Ok tt)
  | (x, y) :: pairs' =>
      if negb (Nat.eqb (List.length where_) (List.length y)) then
        (x :: map fst pairs', Raise IndexError)
      else if negb (Nat.eqb (List.length where_) (List.length x)) then
        (x :: map fst pairs', Raise IndexError)
      else
        let x' := scatter where_ x (select where_ y) in
        let (xs', r) := assign_loop pairs' where_ in
        (x' :: xs', r)
  end.

Definition assign_where {A : Type} (xs ys : list (list A))
    (where_ : list bool) : list (list A) * res unit :=
  if negb (Nat.eqb (List.length xs) (List.length ys)) then
    (xs, Raise AssertionError)
  else assign_loop (combine xs ys) where_.

End Torch.

(** The tensor that has the elements of [y] where the mask is true and
    those of [x] elsewhere. *)
Fixpoint blend {A : Type} (mask : list bool) (x y : list A) : list A :=
  match mask, x, y with
  | m :: mask', a :: x', b :: y' =>
      (if m then b else a) :: blend mask' x' y'
  | _, _, _ => x
  end.

(** What [debug[k] = val] stores: the value, or for a tensor its detached
    copy on the host. *)
Definition stored (val : DebugContainer.value) : DebugContainer.value :=
  match val with
  | DebugContainer.VTensor t =>
      DebugContainer.VTensor (DebugContainer.cpu (DebugContainer.detach t))
  | _ => val
  end.

(** * Properties *)

(** ** Items *)

Section ItemsFacts.
Context {K V : Type} `{Key K}.
Implicit Types (k : K) (v : V) (d : list (K * V)).

Lemma key_eqb_refl k : key_eqb k k = true.
Proof. now apply key_eqb_eq. Qed.

Lemma key_eqb_neq k k' : k <> k' -> key_eqb k k' = false.
Proof.
  intros N. destruct (key_eqb k k') eqn:E; [|reflexivity].
  apply key_eqb_eq in E. contradiction.
Qed.

Lemma dict_get_set_same k v d : dict_get k (dict_set k v d) = Some v.
Proof.
  induction d as [|[k' v'] d IH]; simpl.
  - now rewrite key_eqb_refl.
  - destruct (key_eqb k k') eqn:E; simpl.
    + now rewrite key_eqb_refl.
    + now rewrite E.
Qed.

Lemma dict_get_set_other k k' v d :
  k <> k' -> dict_get k (dict_set k' v d) = dict_get k d.
Proof.
  intros N. induction d as [|[k0 v0] d IH]; simpl.
  - now rewrite key_eqb_neq.
  - destruct (key_eqb k' k0) eqn:E; simpl.
    + apply key_eqb_eq in E. subst k0. now rewrite key_eqb_neq.
    + now rewrite IH.
Qed.

Lemma dict_set_twice k v v' d :
  dict_set k v (dict_set k v' d) = dict_set k v d.
Proof.
  induction d as [|[k0 v0] d IH]; simpl.
  - now rewrite key_eqb_refl.
  - destruct (key_eqb k k0) eqn:E; simpl.
    + now rewrite key_eqb_refl.
    + now rewrite E, IH.
Qed.

Lemma dict_set_same_value k v d :
  dict_get k d = Some v -> dict_set k v d = d.
Proof.
  induction d as [|[k0 v0] d IH]; simpl; [discriminate|].
  destruct (key_eqb k k0) eqn:E.
  - apply key_eqb_eq in E. subst k0. now intros [= ->].
  - intros G. now rewrite IH.
Qed.

Lemma dict_del_absent k d : dict_get k d = None -> dict_del k d = None.
Proof.
  induction d as [|[k0 v0] d IH]; simpl; [reflexivity|].
  destruct (key_eqb k k0); [discriminate|].
  intros G. now rewrite IH.
Qed.

Lemma dict_contains_set k v d : dict_contains k (dict_set k v d) = true.
Proof. unfold dict_contains. now rewrite dict_get_set_same. Qed.

End ItemsFacts.

(** Reduce the pairs and the item lists a method call leaves behind. *)
Ltac tidy :=
  cbv beta iota; cbn [dict_set dict_get fst snd];
  rewrite ?key_eqb_refl; cbv beta iota.

(** ** The defining equations of the recursive methods *)

Section NestedDictEquations.
Import NestedDict.

Lemma getitem_eq self key :
  __getitem__ self key =
  let (k, nk) := _split_key key in
  let (self1, val) := get_or_create self k in
  match nk with
  | None => (self1, Ok val)
  | Some nested_key =>
      if truthy (Some nested_key) then
        match val with
        | VNested child =>
            let (child', r) := __getitem__ child nested_key in
            (dict_set k (VNested child') self1, r)
        | VDict child =>
            match dict_get nested_key child with
            | Some v => (self1, Ok v)
            | None => (self1, Raise (KeyError nested_key))
            end
        | VLeaf _ => (self1, Raise TypeError)
        end
      else (self1, Ok val)
  end.
Proof.
  rewrite __getitem___equation_1. unfold inspect.
  generalize (@eq_refl _ (_split_key key)).
  generalize (_split_key key) at 2 4 5.
  intros [k [r|]] e; cbn; destruct (get_or_create self k); reflexivity.
Qed.

Lemma setitem_eq self key val :
  __setitem__ self key val =
  let (k, nk) := _split_key key in
  match nk with
  | None => (dict_set k val self, Ok tt)
  | Some nested_key =>
      if truthy (Some nested_key) then
        match __getitem__ self k with
        | (self1, Ok (VNested child)) =>
            let (child', r) := __setitem__ child nested_key val in
            (dict_set k (VNested child') self1, r)
        | (self1, Ok (VDict child)) =>
            (dict_set k (VDict (dict_set nested_key val child)) self1, Ok tt)
        | (self1, Ok (VLeaf _)) => (self1, Raise TypeError)
        | (self1, Raise ex) => (self1, Raise ex)
        end
      else (dict_set k val self, Ok tt)
  end.
Proof.
  rewrite __setitem___equation_1. unfold inspect.
  generalize (@eq_refl _ (_split_key key)).
  generalize (_split_key key) at 2 4 5.
  intros [k [r|]] e; cbn; reflexivity.
Qed.

Lemma delitem_eq self key :
  __delitem__ self key =
  let (k, nk) := _split_key key in
  match nk with
  | None =>
      match dict_del k self with
      | Some self' => (self', Ok tt)
      | None => (self, Raise (KeyError k))
      end
  | Some nested_key =>
      if truthy (Some nested_key) then
        match dict_get k self with
        | None => (self, Raise (KeyError k))
        | Some (VNested child) =>
            let (child', r) := __delitem__ child nested_key in
            (dict_set k (VNested child') self, r)
        | Some (VDict child) =>
            match dict_del nested_key child with
            | Some child' => (dict_set k (VDict child') self, Ok tt)
            | None => (self, Raise (KeyError nested_key))
            end
        | Some (VLeaf _) => (self, Raise TypeError)
        end
      else
        match dict_del k self with
        | Some self' => (self', Ok tt)
        | None => (self, Raise (KeyError k))
        end
  end.
Proof.
  rewrite __delitem___equation_1. unfold inspect.
  generalize (@eq_refl _ (_split_key key)).
  generalize (_split_key key) at 2 4 5.
  intros [k [r|]] e; cbn; reflexivity.
Qed.

End NestedDictEquations.

(** ** Keys and their split *)

Section SplitKey.
Import NestedDict.

(** The part before the first dot has no dot. *)
Lemma _split_key_head key k nk :
  _split_key key = (k, nk) -> _split_key k = (k, None).
Proof.
  revert k nk. induction key as [|c s IH]; simpl; intros k nk E.
  - now injection E as <- _.
  - destruct (Ascii.eqb c dot) eqn:D.
    + now injection E as <- _.
    + destruct (_split_key s) as [k' nk'] eqn:S. injection E as <- _.
      simpl. rewrite D, (IH _ _ eq_refl). reflexivity.
Qed.

(** A key without a dot is its own head. *)
Lemma _split_key_flat key k : _split_key key = (k, None) -> k = key.
Proof.
  revert k. induction key as [|c s IH]; simpl; intros k E.
  - now injection E as <-.
  - destruct (Ascii.eqb c dot); [discriminate|].
    destruct (_split_key s) as [k' nk'] eqn:S. injection E as <- ->.
    now rewrite (IH _ eq_refl).
Qed.

(** Where the first dot of [p.r] is: right after [p], or inside [p]. *)
Lemma _split_key_app p r :
  (_split_key p = (p, None) /\ _split_key (p ++ "." ++ r) = (p, Some r)) \/
  (exists k p', _split_key p = (k, Some p') /\
                _split_key (p ++ "." ++ r) = (k, Some (p' ++ "." ++ r))).
Proof.
  induction p as [|c s IH]; simpl.
  - left. split; reflexivity.
  - destruct (Ascii.eqb c dot) eqn:D.
    + right. exists EmptyString, s. split; reflexivity.
    + destruct IH as [[E1 E2]|(k & p' & E1 & E2)].
      * left. simpl in E2. rewrite E1, E2. split; reflexivity.
      * right. simpl in E2. rewrite E1, E2.
        exists (String c k), p'. split; reflexivity.
Qed.

Lemma truthy_Some r : truthy (Some r) = true <-> r <> EmptyString.
Proof.
  unfold truthy. destruct (String.eqb r EmptyString) eqn:E; simpl.
  - apply String.eqb_eq in E. split; [discriminate|congruence].
  - apply String.eqb_neq in E. split; [auto|reflexivity].
Qed.

Lemma append_dot_nonempty p r : p ++ "." ++ r <> EmptyString.
Proof. destruct p; discriminate. Qed.

End SplitKey.

(** ** NestedDict: assignment and lookup by compound key *)

Section NestedDictPaths.
Import NestedDict.

Lemma get_or_create_present (d : items) k v :
  dict_get k d = Some v -> get_or_create d k = (d, v).
Proof. unfold get_or_create. now intros ->. Qed.

Lemma get_or_create_absent (d : items) k :
  dict_get k d = None ->
  get_or_create d k = (dict_set k (VNested []) d, VNested []).
Proof. unfold get_or_create. now intros ->. Qed.

(** Lookup by a key without a dot. *)
Lemma getitem_flat d key :
  _split_key key = (key, None) ->
  __getitem__ d key = let (d', v) := get_or_create d key in (d', Ok v).
Proof. intros S. rewrite getitem_eq, S. reflexivity. Qed.

Lemma single_get k (v : value) : dict_get k [(k, v)] = Some v.
Proof. simpl. now rewrite String.eqb_refl. Qed.

(** What is stored under a prefix of the key is found from the parent as
    well. *)
Lemma prefix_lookup d key k r0 c :
  _split_key key = (k, Some r0) ->
  dict_get k d = Some (VNested c) ->
  (forall p r, r0 = p ++ "." ++ r -> r <> EmptyString ->
     exists c', __getitem__ c p = (c, Ok (VNested c'))) ->
  forall p r, key = p ++ "." ++ r -> r <> EmptyString ->
    exists c', __getitem__ d p = (d, Ok (VNested c')).
Proof.
  intros S G Ep p r -> Hr.
  destruct (_split_key_app p r) as [[E1 E2]|(k' & p' & E1 & E2)];
    rewrite E2 in S; injection S as <- <-.
  - exists c. rewrite (getitem_flat _ _ E1).
    now rewrite (get_or_create_present _ _ _ G).
  - rewrite getitem_eq, E1, (get_or_create_present _ _ _ G).
    destruct (truthy (Some p')) eqn:T'.
    + destruct (Ep p' r eq_refl Hr) as (c' & Ec').
      exists c'. rewrite Ec'. cbv beta iota.
      now rewrite (dict_set_same_value _ _ _ G).
    + now exists c.
Qed.

(** A key whose rest is empty or missing has no proper prefix. *)
Lemma no_prefix_of_last key k nk p r :
  _split_key key = (k, nk) -> truthy nk = false ->
  key = p ++ "." ++ r -> r <> EmptyString -> False.
Proof.
  intros S T -> Hr.
  destruct (_split_key_app p r) as [[E1 E2]|(k' & p' & E1 & E2)];
    rewrite E2 in S; injection S as _ <-.
  - exact (eq_true_false_abs _ (proj2 (truthy_Some r) Hr) T).
  - exact (eq_true_false_abs _
             (proj2 (truthy_Some _) (append_dot_nonempty p' r)) T).
Qed.

(** Assignment to an empty [NestedDict] builds one [NestedDict] per segment
    of the key; the same key then leads back to the value, and every proper
    prefix of the key leads to one of the mappings built. *)
Lemma set_then_get_bounded n :
  forall key v, String.length key < n ->
  exists d,
    __setitem__ [] key v = (d, Ok tt) /\
    __getitem__ d key = (d, Ok v) /\
    (forall p r, key = p ++ "." ++ r -> r <> EmptyString ->
       exists c, __getitem__ d p = (d, Ok (VNested c))).
Proof.
  induction n as [|n IH]; intros key v L; [lia|].
  rewrite setitem_eq.
  destruct (_split_key key) as [k nk] eqn:S.
  destruct (truthy nk) eqn:T.
  - (* the key goes on after its first segment *)
    destruct nk as [r0|]; [|discriminate]. rewrite T.
    pose proof (_split_key_head _ _ _ S) as Hk.
    destruct (IH r0 v) as (c & Es & Eg & Ep).
    { pose proof (_split_key_shorter _ _ _ S). lia. }
    rewrite (getitem_flat [] k Hk). unfold get_or_create.
    cbn [dict_get dict_set]. rewrite Es. tidy.
    exists [(k, VNested c)]. split; [reflexivity|]. split.
    + rewrite getitem_eq, S, (get_or_create_present _ _ _ (single_get _ _)).
      rewrite T, Eg. tidy. reflexivity.
    + eapply prefix_lookup; eauto using single_get.
  - (* the first segment is the whole key *)
    exists [(k, v)]. split; [|split].
    + destruct nk as [r0|]; [now rewrite T|reflexivity].
    + rewrite getitem_eq, S, (get_or_create_present _ _ _ (single_get _ _)).
      destruct nk as [r0|]; [now rewrite T|reflexivity].
    + intros p r Hk Hr. exfalso. eapply no_prefix_of_last; eauto.
Qed.

(** Every key can be followed through an empty mapping. *)
Lemma nested_along_empty_bounded n :
  forall key, String.length key < n -> nested_along [] key.
Proof.
  induction n as [|n IH]; intros key L; [lia|].
  destruct (_split_key key) as [k [r0|]] eqn:S.
  - destruct (truthy (Some r0)) eqn:T.
    + eapply along_absent; eauto.
      apply IH. pose proof (_split_key_shorter _ _ _ S). lia.
    + eapply along_last; eauto.
  - eapply along_last; eauto.
Qed.

Lemma nested_along_empty key : nested_along [] key.
Proof. eapply nested_along_empty_bounded. apply Nat.lt_succ_diag_r. Qed.

(** Lookup along a path of [NestedDict]s: it returns, what it returns is
    stored (a second lookup finds it and changes nothing), the first segment
    is a key of the mapping afterwards, a missing first segment gives an
    empty [NestedDict], and every proper prefix of the key leads to a
    [NestedDict]. *)
Lemma getitem_along d key :
  nested_along d key ->
  exists d' v,
    __getitem__ d key = (d', Ok v) /\
    __getitem__ d' key = (d', Ok v) /\
    dict_contains (fst (_split_key key)) d' = true /\
    (dict_get (fst (_split_key key)) d = None -> v = VNested []) /\
    (forall p r, key = p ++ "." ++ r -> r <> EmptyString ->
       exists c, __getitem__ d' p = (d', Ok (VNested c))).
Proof.
  induction 1 as [d key k nk S T|d key k r S T G _ IH|d key k r c S T G _ IH].
  - assert (E : forall s, __getitem__ s key =
                 let (s', v) := get_or_create s k in (s', Ok v)).
    { intros s. rewrite getitem_eq, S. destruct nk as [r|]; [|reflexivity].
      rewrite T. reflexivity. }
    rewrite !E, S. cbn [fst].
    destruct (dict_get k d) as [v|] eqn:G.
    + exists d, v. rewrite (get_or_create_present _ _ _ G).
      repeat split; try easy.
      * rewrite E. now rewrite (get_or_create_present _ _ _ G).
      * unfold dict_contains. now rewrite G.
      * intros p r Hk Hr. exfalso. eapply no_prefix_of_last; eauto.
    + exists (dict_set k (VNested []) d), (VNested []).
      rewrite (get_or_create_absent _ _ G).
      repeat split; try easy.
      * rewrite E.
        now rewrite (get_or_create_present _ _ _ (dict_get_set_same _ _ _)).
      * apply dict_contains_set.
      * intros p r Hk Hr. exfalso. eapply no_prefix_of_last; eauto.
  - destruct IH as (c' & v & E1 & E2 & _ & Hv & Ep).
    specialize (Hv eq_refl). subst v.
    exists (dict_set k (VNested c') d), (VNested []).
    rewrite S. cbn [fst].
    assert (G' : dict_get k (dict_set k (VNested c') d) = Some (VNested c'))
      by apply dict_get_set_same.
    repeat split; try easy.
    + rewrite getitem_eq, S, (get_or_create_absent _ _ G), T, E1.
      cbv beta iota. now rewrite dict_set_twice.
    + rewrite getitem_eq, S, (get_or_create_present _ _ _ G'), T, E2.
      cbv beta iota. now rewrite dict_set_twice.
    + apply dict_contains_set.
    + eapply prefix_lookup; eauto.
  - destruct IH as (c' & v & E1 & E2 & _ & _ & Ep).
    exists (dict_set k (VNested c') d), v.
    rewrite S. cbn [fst].
    assert (G' : dict_get k (dict_set k (VNested c') d) = Some (VNested c'))
      by apply dict_get_set_same.
    repeat split.
    + rewrite getitem_eq, S, (get_or_create_present _ _ _ G), T, E1.
      reflexivity.
    + rewrite getitem_eq, S, (get_or_create_present _ _ _ G'), T, E2.
      cbv beta iota. now rewrite dict_set_twice.
    + apply dict_contains_set.
    + congruence.
    + eapply prefix_lookup; eauto.
Qed.

(** A dotted key is not its own first segment. *)
Lemma head_neq_key key k r : _split_key key = (k, Some r) -> k <> key.
Proof.
  intros S ->. pose proof (_split_key_head _ _ _ S) as S'. congruence.
Qed.

(** Lookup changes the entry of the first segment of the key and no
    other. *)
Lemma getitem_frame d key x :
  x <> fst (_split_key key) ->
  dict_get x (fst (__getitem__ d key)) = dict_get x d.
Proof.
  intros N. rewrite getitem_eq.
  destruct (_split_key key) as [k nk]. cbn [fst] in N.
  assert (F : dict_get x (fst (get_or_create d k)) = dict_get x d).
  { unfold get_or_create. destruct (dict_get k d); cbn [fst]; [reflexivity|].
    now apply dict_get_set_other. }
  destruct (get_or_create d k) as [d1 val]. cbn [fst] in F.
  destruct nk as [r|]; [|exact F].
  destruct (truthy (Some r)); [|exact F].
  destruct val as [a|child|child]; cbn [fst]; try exact F.
  - destruct (dict_get r child); exact F.
  - destruct (__getitem__ child r) as [child' res]. cbn [fst].
    now rewrite dict_get_set_other.
Qed.

(** What lookup returns does not depend on the entries of keys other than
    the first segment. *)
Lemma getitem_ignores_other_keys d key x v :
  x <> fst (_split_key key) ->
  snd (__getitem__ (dict_set x v d) key) = snd (__getitem__ d key).
Proof.
  intros N. rewrite !getitem_eq.
  destruct (_split_key key) as [k nk]. cbn [fst] in N.
  assert (F : snd (get_or_create (dict_set x v d) k) = snd (get_or_create d k)).
  { unfold get_or_create. rewrite (dict_get_set_other k x v d) by congruence.
    destruct (dict_get k d); reflexivity. }
  destruct (get_or_create (dict_set x v d) k) as [d1 val1].
  destruct (get_or_create d k) as [d2 val2]. cbn [snd] in F. subst val2.
  destruct nk as [r|]; [|reflexivity].
  destruct (truthy (Some r)); [|reflexivity].
  destruct val1 as [a|child|child]; try reflexivity.
  - destruct (dict_get r child); reflexivity.
  - destruct (__getitem__ child r) as [child' res]. reflexivity.
Qed.

End NestedDictPaths.

(** ** NestedDict: the statements *)

Section NestedDictStatements.
Import NestedDict.

(** C5.  For every value [v] and every key, the assignment
    [NestedDict()[key] = v] succeeds and [d[key]] is [v] afterwards, found
    without changing [d]; and for every way to write the key as [p.r] with
    [r] not empty -- a compound key and one of its proper prefixes, such as
    [a] and [a.b] for [a.b.c] -- the lookup [d[p]] is a [NestedDict]. *)
Theorem setitem_then_getitem (v : value) (key : string) :
  exists d,
    __setitem__ [] key v = (d, Ok tt) /\
    __getitem__ d key = (d, Ok v) /\
    (forall p r, key = p ++ "." ++ r -> r <> EmptyString ->
       exists c, __getitem__ d p = (d, Ok (VNested c))).
Proof.
  apply (set_then_get_bounded (S (String.length key))).
  apply Nat.lt_succ_diag_r.
Qed.

(** The key [a.b.c] of the description, with its prefixes [a] and [a.b]. *)
Lemma setitem_then_getitem_abc :
  exists d,
    __setitem__ [] "a.b.c" (VLeaf (AInt 7)) = (d, Ok tt) /\
    __getitem__ d "a.b.c" = (d, Ok (VLeaf (AInt 7))) /\
    (exists c, __getitem__ d "a" = (d, Ok (VNested c))) /\
    (exists c, __getitem__ d "a.b" = (d, Ok (VNested c))).
Proof.
  destruct (setitem_then_getitem (VLeaf (AInt 7)) "a.b.c")
    as (d & Es & Eg & Ep).
  exists d. repeat split; try assumption.
  - apply (Ep "a" "b.c"); [reflexivity|discriminate].
  - apply (Ep "a.b" "c"); [reflexivity|discriminate].
Defined.

(** Lookup of an absent key, where only [NestedDict]s stand before the
    missing segment, returns an empty [NestedDict]. *)
Lemma getitem_absent d key :
  absent_along d key -> snd (__getitem__ d key) = Ok (VNested []).
Proof.
  induction 1 as [d key k nk S T G|d key k r S T G|d key k r c S T G _ IH].
  - rewrite getitem_eq, S. destruct nk as [r|].
    + rewrite T, (get_or_create_absent _ _ G). reflexivity.
    + rewrite (get_or_create_absent _ _ G). reflexivity.
  - assert (A : nested_along d key)
      by (eapply along_absent; eauto using nested_along_empty).
    destruct (getitem_along d key A) as (d' & v & E1 & _ & _ & N & _).
    rewrite S in N. rewrite E1, (N G). reflexivity.
  - rewrite getitem_eq, S, (get_or_create_present _ _ _ G), T.
    destruct (__getitem__ c r) as [c' res]. exact IH.
Qed.

(** A lookup adds no key with a dot: whether such a key is one of the keys
    of the mapping is the same before and after. *)
Lemma getitem_adds_no_dotted_key d key r :
  snd (_split_key key) = Some r ->
  dict_contains key (fst (__getitem__ d key)) = dict_contains key d.
Proof.
  intros S. unfold dict_contains. rewrite getitem_frame; [reflexivity|].
  destruct (_split_key key) as [k nk] eqn:E. cbn [fst snd] in *. subst nk.
  intros ->. exact (head_neq_key _ _ _ E eq_refl).
Qed.

(** C7, as the code has it.  When the values already stored along the key
    are [NestedDict]s (always so for a key without a dot), [d[key]] does not
    fail; what it returns is stored, so a second lookup finds it and changes
    nothing; the first segment of the key is a key of the mapping
    afterwards, and for a key without a dot that is the key itself; when the
    key is absent, that is when one of its segments is missing from the
    [NestedDict] that the segments before it lead to, the first one
    included, the result is an empty [NestedDict]; every proper prefix of a
    dotted key leads to a [NestedDict]; and a key with a dot is not added to
    the keys of the mapping. *)
Theorem getitem_auto_vivifies d key :
  nested_along d key ->
  exists d' v,
    __getitem__ d key = (d', Ok v) /\
    __getitem__ d' key = (d', Ok v) /\
    dict_contains (fst (_split_key key)) d' = true /\
    (dict_get (fst (_split_key key)) d = None -> v = VNested []) /\
    (absent_along d key -> v = VNested []) /\
    (snd (_split_key key) = None ->
       dict_contains key d' = true /\
       (dict_contains key d = false ->
          v = VNested [] /\ d' = dict_set key (VNested []) d)) /\
    (forall r, snd (_split_key key) = Some r ->
       dict_contains key d' = dict_contains key d) /\
    (forall p r, key = p ++ "." ++ r -> r <> EmptyString ->
       exists c, __getitem__ d' p = (d', Ok (VNested c))).
Proof.
  intros A. destruct (getitem_along d key A) as (d' & v & E1 & E2 & C & N & P).
  exists d', v.
  split; [exact E1|]. split; [exact E2|]. split; [exact C|].
  split; [exact N|].
  split.
  { intros Ab. pose proof (getitem_absent d key Ab) as Ea.
    rewrite E1 in Ea. cbn [snd] in Ea. now injection Ea. }
  split; [|split; [|exact P]].
  - intros Hn. destruct (_split_key key) as [k nk] eqn:S.
    cbn [fst snd] in *. subst nk.
    pose proof (_split_key_flat _ _ S) as ->.
    split; [exact C|]. intros Hc. unfold dict_contains in Hc.
    destruct (dict_get key d) eqn:G; [discriminate|].
    split; [now apply N|].
    rewrite (getitem_flat _ _ S), (get_or_create_absent _ _ G) in E1.
    now injection E1 as <- _.
  - intros r Hr. pose proof (getitem_adds_no_dotted_key d key r Hr) as F.
    now rewrite E1 in F.
Qed.

(** Lookup of [a.b.c] where [a] is there and [b] is not: the key is absent,
    and the lookup returns an empty [NestedDict]. *)
Lemma getitem_auto_vivifies_abc :
  nested_along [("a", VNested [])] "a.b.c" /\
  absent_along [("a", VNested [])] "a.b.c" /\
  exists d',
    __getitem__ [("a", VNested [])] "a.b.c" = (d', Ok (VNested [])) /\
    __getitem__ d' "a.b.c" = (d', Ok (VNested [])) /\
    dict_contains "a.b.c" d' = false /\
    (exists c, __getitem__ d' "a.b" = (d', Ok (VNested c))).
Proof.
  assert (A : nested_along [("a", VNested [])] "a.b.c").
  { eapply along_step; [reflexivity|reflexivity|reflexivity|].
    eapply along_absent; [reflexivity|reflexivity|reflexivity|].
    eapply along_last; reflexivity. }
  assert (B : absent_along [("a", VNested [])] "a.b.c").
  { eapply absent_step; [reflexivity|reflexivity|reflexivity|].
    eapply absent_head; reflexivity. }
  split; [exact A|]. split; [exact B|].
  destruct (getitem_auto_vivifies _ _ A)
    as (d' & v & E1 & E2 & _ & _ & Ab & _ & F & P).
  rewrite (Ab B) in E1, E2.
  exists d'. split; [exact E1|]. split; [exact E2|].
  split; [exact (F "b.c" eq_refl)|].
  apply (P "a.b" "c"); [reflexivity|discriminate].
Defined.

(** C7 fails as stated: ["a.b"] is not a key of [{"a": 5}], and looking it
    up raises [TypeError]; it is not a key of [{"a": {}}] with a plain
    [dict] either, and looking it up there raises [KeyError]; and after
    ["a.b"] is looked up in an empty [NestedDict], ["a.b"] is still not one
    of its keys (["a"] is). *)
Lemma getitem_of_absent_key_can_fail :
  dict_contains "a.b" [("a", VLeaf (AInt 5))] = false /\
  __getitem__ [("a", VLeaf (AInt 5))] "a.b" =
    ([("a", VLeaf (AInt 5))], Raise TypeError) /\
  dict_contains "a.b" [("a", VDict [])] = false /\
  __getitem__ [("a", VDict [])] "a.b" =
    ([("a", VDict [])], Raise (KeyError "b")) /\
  __getitem__ [] "a.b" =
    ([("a", VNested [("b", VNested [])])], Ok (VNested [])) /\
  dict_contains "a.b" [("a", VNested [("b", VNested [])])] = false.
Proof. repeat split; reflexivity. Qed.

(** C8.  For every dotted key whose first segment is missing, [del d[key]]
    raises [KeyError] for that segment and leaves the mapping as it was:
    nothing is created on the way. *)
Theorem delitem_missing_head d key k r :
  _split_key key = (k, Some r) ->
  dict_get k d = None ->
  __delitem__ d key = (d, Raise (KeyError k)).
Proof.
  intros S G. rewrite delitem_eq, S.
  destruct (truthy (Some r)).
  - now rewrite G.
  - now rewrite (dict_del_absent _ _ G).
Qed.

Lemma delitem_missing_head_abc :
  _split_key "a.b.c" = ("a", Some "b.c") /\
  dict_get "a" [("x", VLeaf ANone)] = None /\
  __delitem__ [("x", VLeaf ANone)] "a.b.c" =
    ([("x", VLeaf ANone)], Raise (KeyError "a")).
Proof.
  split; [reflexivity|]. split; [reflexivity|].
  apply (delitem_missing_head [("x", VLeaf ANone)] "a.b.c" "a" "b.c");
    reflexivity.
Defined.

(** C10, as the code has it.  For every dotted key paired with a value
    that is not a mapping, [d.update({key: v})] stores [v] under the unsplit
    key.  A lookup of the key afterwards does not read that entry: it
    returns what it would have returned before the update, and leaves the
    entry in place.  When the first segment of the key was missing, that is
    a new empty [NestedDict], which is not [v], stored under the first
    segment. *)
Theorem update_dotted_key_is_flat limit d key k r v :
  _split_key key = (k, Some r) ->
  is_dict v = false ->
  update (S limit) d [(key, v)] = (dict_set key v d, Ok tt) /\
  dict_get key (dict_set key v d) = Some v /\
  snd (__getitem__ (dict_set key v d) key) = snd (__getitem__ d key) /\
  dict_get key (fst (__getitem__ (dict_set key v d) key)) = Some v /\
  (dict_get k d = None ->
     snd (__getitem__ (dict_set key v d) key) = Ok (VNested []) /\
     VNested [] <> v /\
     dict_contains k (fst (__getitem__ (dict_set key v d) key)) = true).
Proof.
  intros S D. pose proof (head_neq_key _ _ _ S) as N.
  assert (N' : key <> fst (_split_key key)) by (rewrite S; cbn; congruence).
  split; [|split; [|split; [|split]]].
  - cbn [update update_loop]. unfold update_item. now rewrite D.
  - apply dict_get_set_same.
  - now apply getitem_ignores_other_keys.
  - rewrite getitem_frame by exact N'. apply dict_get_set_same.
  - intros G.
    assert (A : nested_along (dict_set key v d) key).
    { destruct (truthy (Some r)) eqn:T.
      - eapply along_absent; eauto using nested_along_empty.
        rewrite dict_get_set_other by exact N. exact G.
      - eapply along_last; eauto. }
    destruct (getitem_along _ _ A) as (d' & v' & E1 & _ & C & Hv & _).
    rewrite S in C, Hv. cbn [fst] in C, Hv.
    rewrite E1. cbn [fst snd].
    split; [|split; [|exact C]].
    + f_equal. apply Hv. rewrite dict_get_set_other by exact N. exact G.
    + destruct v; [discriminate|discriminate D|discriminate D].
Qed.

(** With the key [a.b] and the first segment [a] missing. *)
Lemma update_dotted_key_is_flat_ab :
  _split_key "a.b" = ("a", Some "b") /\
  update 1 [] [("a.b", VLeaf (AInt 5))] = ([("a.b", VLeaf (AInt 5))], Ok tt) /\
  snd (__getitem__ [("a.b", VLeaf (AInt 5))] "a.b") = Ok (VNested []).
Proof.
  split; [reflexivity|].
  destruct (update_dotted_key_is_flat 0 [] "a.b" "a" "b" (VLeaf (AInt 5))
              eq_refl eq_refl) as (U & _ & _ & _ & V).
  split; [exact U|]. now apply V.
Defined.

(** C10 fails as stated for a mapping that holds [v] at the split path
    already: the update stores [v] under the unsplit key, and the lookup
    that follows returns [v], read from the path. *)
Lemma update_then_getitem_can_return_the_value :
  update 1 [("a", VNested [("b", VLeaf (AInt 5))])] [("a.b", VLeaf (AInt 5))] =
    ([("a", VNested [("b", VLeaf (AInt 5))]); ("a.b", VLeaf (AInt 5))], Ok tt) /\
  __getitem__
    [("a", VNested [("b", VLeaf (AInt 5))]); ("a.b", VLeaf (AInt 5))] "a.b" =
    ([("a", VNested [("b", VLeaf (AInt 5))]); ("a.b", VLeaf (AInt 5))],
     Ok (VLeaf (AInt 5))).
Proof. split; reflexivity. Qed.

End NestedDictStatements.

(** ** DebugContainer *)

Section DebugContainerFacts.
Import DebugContainer.

Lemma pop_app l x : pop (l ++ [x])%list = Some (l, x).
Proof. unfold pop. now rewrite rev_unit, rev_involutive. Qed.

Lemma append_assoc (a b c : string) : (a ++ b) ++ c = a ++ (b ++ c).
Proof. induction a as [|x a IH]; simpl; [reflexivity|]. now rewrite IH. Qed.

(** Joining with one more part appends a dot and the part, unless there was
    nothing before. *)
Lemma join_snoc l s :
  l <> [] -> join (l ++ [s])%list = join l ++ "." ++ s.
Proof.
  unfold join. induction l as [|a l IH]; intros N; [congruence|].
  destruct l as [|b l].
  - reflexivity.
  - change (String.concat "." ((a :: b :: l) ++ [s])%list)
      with (a ++ "." ++ String.concat "." ((b :: l) ++ [s])%list).
    rewrite IH by discriminate.
    change (String.concat "." (a :: b :: l))
      with (a ++ "." ++ String.concat "." (b :: l)).
    now rewrite !append_assoc.
Qed.

Lemma length_append (a b : string) :
  String.length (a ++ b) = String.length a + String.length b.
Proof. induction a as [|c a IH]; simpl; [reflexivity|]. now rewrite IH. Qed.

(** Inside a scope, resolving a key makes it longer: a resolved key does not
    resolve to itself. *)
Lemma _getkey_not_idempotent self k :
  _levels self <> [] ->
  _getkey self (_getkey self k) <> _getkey self k.
Proof.
  intros N.
  assert (R : forall k', _getkey self k' =
                         KStr (join (_levels self) ++ "." ++ str k')).
  { intros k'. unfold _getkey.
    destruct (_levels self) as [|a l] eqn:L; [congruence|].
    rewrite <- join_snoc by discriminate. now destruct k'. }
  rewrite (R (_getkey self k)), (R k). cbn [str].
  intros [= E]. apply (f_equal String.length) in E.
  rewrite !length_append in E. cbn [String.length append] in E.
  rewrite !length_append in E. cbn [String.length] in E. lia.
Qed.

(** With no scope open, a resolved key resolves to itself. *)
Lemma _getkey_idempotent_at_top self k :
  _levels self = [] -> _getkey self (_getkey self k) = _getkey self k.
Proof.
  intros L. unfold _getkey. rewrite L. destruct k as [z|s]; reflexivity.
Qed.

(** What [__setitem__], [__getitem__] and [result] leave alone. *)
Lemma __setitem___levels self k val :
  _levels (__setitem__ self k val) = _levels self.
Proof. unfold __setitem__. now destruct (cls self). Qed.

Lemma __getitem___levels self k :
  _levels (fst (__getitem__ self k)) = _levels self.
Proof.
  unfold __getitem__. destruct (dict_get _ _); cbn [fst]; [reflexivity|].
  apply __setitem___levels.
Qed.

Lemma __setitem___cls self k val : cls (__setitem__ self k val) = cls self.
Proof. unfold __setitem__. destruct (cls self) eqn:E; [exact E|exact E]. Qed.

(** A program leaves the scope stack as it found it, however it ends. *)
Lemma exec_keeps_levels s :
  forall self, _levels (fst (exec s self)) = _levels self.
Proof.
  induction s as [k val|k|val|e|label body IH] using stmt_nested_ind;
    intros self; cbn [exec fst].
  - apply __setitem___levels.
  - apply __getitem___levels.
  - reflexivity.
  - reflexivity.
  - change (_levels (fst (cd self label (exec_body body))) = _levels self).
    unfold cd.
    assert (B : forall c, _levels (fst (exec_body body c)) = _levels c).
    { induction IH as [|s' b' Hs _ IHb]; intros c; cbn [exec_body fst].
      - reflexivity.
      - specialize (Hs c). destruct (exec s' c) as [c' [u|e']]; cbn [fst] in *.
        + now rewrite IHb.
        + exact Hs. }
    specialize (B (with_levels self (_levels self ++ [label]))).
    destruct (exec_body body _) as [self1 r]. cbn [fst _levels with_levels] in B.
    rewrite B, pop_app, String.eqb_refl. reflexivity.
Qed.

Lemma exec_body_keeps_levels body :
  forall self, _levels (fst (exec_body body self)) = _levels self.
Proof.
  induction body as [|s b IH]; intros self; cbn [exec_body fst].
  - reflexivity.
  - pose proof (exec_keeps_levels s self) as Hs.
    destruct (exec s self) as [c' [u|e']]; cbn [fst] in *.
    + now rewrite IH.
    + exact Hs.
Qed.

End DebugContainerFacts.

(** ** DebugContainer: the statements *)

Section DebugContainerStatements.
Import DebugContainer.

(** [debug[k] = val] on a [DebugContainer] stores, under the resolved key, a
    value that is detached and on the host. *)
Lemma setitem_stores_detached self k val :
  cls self = DebugContainer ->
  exists val',
    dict_get (_getkey self k) (data (__setitem__ self k val)) = Some val' /\
    detached_on_host val' /\
    (forall t, val = VTensor t -> val' = VTensor (cpu (detach t))).
Proof.
  intros C. unfold __setitem__. rewrite C.
  destruct val as [t|c d l|o]; eexists;
    (split; [apply dict_get_set_same|]); cbn; split; try easy;
    intros t' [= <-]; reflexivity.
Qed.

(** C1, where the code departs from it.  [result] stores the value it is
    given as it is: a tensor that is part of a graph and lives on a device
    is in the mapping afterwards, unchanged, where [debug[k] = ...] stores
    the detached copy on the host. *)
Theorem result_stores_tensor_as_given (self : container) (t : Tensor) :
  dict_get (KStr (join (_levels self))) (data (fst (result self (VTensor t))))
    = Some (VTensor t) /\
  (let t0 := {| numbers := [1%Z]; in_graph := true; where_ := CUDA 0 |} in
   let c0 := {| cls := DebugContainer; data := []; _levels := ["outer"] |} in
   data (fst (result c0 (VTensor t0))) = [(KStr "outer", VTensor t0)] /\
   data (__setitem__ c0 (KStr "x") (VTensor t0)) =
     [(KStr "outer.x",
       VTensor {| numbers := [1%Z]; in_graph := false; where_ := CPU |})]).
Proof.
  split.
  - unfold result, UserDict__setitem__. cbn [fst data with_data].
    apply dict_get_set_same.
  - split; reflexivity.
Qed.

(** With no scope open, [debug[k]] on a [DebugContainer] stores the new
    container under the resolved key, and the next lookup finds it. *)
Lemma getitem_vivifies_at_top self k :
  cls self = DebugContainer ->
  _levels self = [] ->
  dict_get (_getkey self k) (data self) = None ->
  exists self',
    __getitem__ self k = (self', as_value (new DebugContainer)) /\
    dict_get (_getkey self k) (data self') = Some (as_value (new DebugContainer)) /\
    __getitem__ self' k = (self', as_value (new DebugContainer)).
Proof.
  intros C L G. unfold __getitem__ at 1. rewrite G, C.
  eexists. split; [reflexivity|].
  assert (E : dict_get (_getkey self k)
                (data (__setitem__ self (_getkey self k)
                         (as_value (new DebugContainer)))) =
              Some (as_value (new DebugContainer))).
  { unfold __setitem__. rewrite C, (_getkey_idempotent_at_top _ _ L).
    cbn [as_value new cls data _levels UserDict__setitem__ with_data].
    apply dict_get_set_same. }
  split; [exact E|].
  unfold __getitem__.
  assert (K : _getkey (__setitem__ self (_getkey self k)
                         (as_value (new DebugContainer))) k = _getkey self k).
  { unfold _getkey. now rewrite __setitem___levels. }
  now rewrite K, E.
Qed.

(** C2, where the code departs from it.  Inside a scope, [debug[k]] on a
    [DebugContainer] that has nothing under the resolved key creates the new
    container and returns it, but stores it under the resolved key resolved
    once more, which is another key: the resolved key itself stays
    missing, and the next lookup creates a container again. *)
Theorem getitem_in_scope_stores_elsewhere self k :
  cls self = DebugContainer ->
  _levels self <> [] ->
  dict_get (_getkey self k) (data self) = None ->
  exists self',
    __getitem__ self k = (self', as_value (new DebugContainer)) /\
    dict_get (_getkey self (_getkey self k)) (data self')
      = Some (as_value (new DebugContainer)) /\
    dict_get (_getkey self k) (data self') = None /\
    __getitem__ self' k = (self', as_value (new DebugContainer)).
Proof.
  intros C L G. destruct self as [c d l]. cbn [cls _levels data] in *. subst c.
  set (self := {| cls := DebugContainer; data := d; _levels := l |}) in *.
  set (val := as_value (new DebugContainer)).
  set (k1 := _getkey self k) in *.
  set (k2 := _getkey self k1).
  set (self' := {| cls := DebugContainer; data := dict_set k2 val d;
                   _levels := l |}).
  assert (N : k1 <> k2).
  { intros E. symmetry in E. revert E. now apply _getkey_not_idempotent. }
  assert (G' : dict_get k1 (data self') = None).
  { cbn [data self']. now rewrite dict_get_set_other. }
  assert (E1 : forall x, _getkey self' x = _getkey self x) by reflexivity.
  exists self'. split; [|split; [|split; [exact G'|]]].
  - unfold __getitem__. fold k1. change (data self) with d. rewrite G.
    reflexivity.
  - apply dict_get_set_same.
  - unfold __getitem__. rewrite E1. fold k1. rewrite G'.
    unfold __setitem__. cbn [cls self']. rewrite E1. fold k2.
    unfold UserDict__setitem__, with_data. cbn [cls data _levels self'].
    fold val. now rewrite dict_set_twice.
Qed.

(** Inside the scope [outer], [debug["x"]] stores under ["outer.outer.x"]. *)
Lemma getitem_in_scope_stores_elsewhere_outer :
  exists self',
    __getitem__ {| cls := DebugContainer; data := []; _levels := ["outer"] |}
      (KStr "x") = (self', as_value (new DebugContainer)) /\
    data self' = [(KStr "outer.outer.x", as_value (new DebugContainer))] /\
    dict_get (KStr "outer.x") (data self') = None.
Proof.
  destruct (getitem_in_scope_stores_elsewhere
              {| cls := DebugContainer; data := []; _levels := ["outer"] |}
              (KStr "x") eq_refl ltac:(discriminate) eq_refl)
    as (self' & E & _ & G & _).
  exists self'. split; [exact E|]. split; [|exact G].
  cbv in E. now injection E as <-.
Defined.

(** On a [_NullDebug] whose mapping is empty, assignments and lookups, in
    any number and order, leave the mapping empty, and every lookup returns
    a new empty [_NullDebug]. *)
Lemma null_debug_discards_assignments prog :
  writes_by_assignment_only prog ->
  forall self, cls self = _NullDebug -> data self = [] ->
    exec_body prog self = (self, Ok tt) /\
    forall k, __getitem__ self k = (self, as_value (new _NullDebug)).
Proof.
  intros W self C D.
  assert (G : forall k, __getitem__ self k = (self, as_value (new _NullDebug))).
  { intros k. unfold __getitem__, __setitem__. now rewrite D, C. }
  split; [|exact G].
  induction W as [|s prog Hs _ IH]; [reflexivity|].
  cbn [exec_body]. destruct s as [k val|k|val|e|label body]; try contradiction.
  - cbn [exec]. unfold __setitem__. rewrite C. exact IH.
  - cbn [exec]. rewrite G. exact IH.
Qed.

(** C3, where the code departs from it.  [result] on a [_NullDebug] is not
    discarded: it writes to the mapping, which is not empty afterwards; on
    the new instance the entry is under the empty key. *)
Theorem null_debug_result_is_stored (v : value) (self : container) :
  data (fst (result (new _NullDebug) v)) = [(KStr "", v)] /\
  dict_get (KStr (join (_levels self))) (data (fst (result self v))) = Some v /\
  __setitem__ (new _NullDebug) (KStr "x") v = new _NullDebug.
Proof.
  split; [reflexivity|]. split; [|reflexivity].
  unfold result, UserDict__setitem__. cbn [fst data with_data].
  apply dict_get_set_same.
Qed.

(** C4.  [with debug.cd(label): body] runs the body with [label] pushed.
    However the body ends, with [r] a normal end or an exception: if the
    stack the body leaves is [rest] with [top] on it, the exit pops [top]
    and nothing else, touches no entry, and ends as the body did when [top]
    is the label, with [AssertionError] otherwise; if the body leaves the
    stack as it found it, the stack after the block is the stack before it
    and the block ends as the body did.  A body that leaves no label at all
    makes the exit raise [IndexError]. *)
Theorem cd_restores_scope_stack self label (body : block) after r :
  body (with_levels self (_levels self ++ [label])) = (after, r) ->
  (forall rest top, _levels after = (rest ++ [top])%list ->
     _levels (fst (cd self label body)) = rest /\
     data (fst (cd self label body)) = data after /\
     snd (cd self label body) =
       if String.eqb label top then r else Raise AssertionError) /\
  (_levels after = (_levels self ++ [label])%list ->
     _levels (fst (cd self label body)) = _levels self /\
     snd (cd self label body) = r) /\
  (_levels after = [] -> cd self label body = (after, Raise IndexError)).
Proof.
  intros B.
  assert (P : forall rest top, _levels after = (rest ++ [top])%list ->
     _levels (fst (cd self label body)) = rest /\
     data (fst (cd self label body)) = data after /\
     snd (cd self label body) =
       if String.eqb label top then r else Raise AssertionError).
  { intros rest top E. unfold cd. rewrite B, E, pop_app.
    destruct (String.eqb label top); repeat split. }
  split; [exact P|]. split.
  - intros E. destruct (P _ _ E) as (E1 & _ & E3).
    rewrite String.eqb_refl in E3. now split.
  - intros E. unfold cd. now rewrite B, E.
Qed.

(** A body that raises inside the scope [inner] under [outer]: the stack is
    [outer] again afterwards and the exception goes on. *)
Lemma cd_restores_scope_stack_on_raise :
  _levels (fst (cd {| cls := DebugContainer; data := []; _levels := ["outer"] |}
                  "inner" (fun c => (c, Raise TypeError)))) = ["outer"] /\
  snd (cd {| cls := DebugContainer; data := []; _levels := ["outer"] |}
         "inner" (fun c => (c, Raise TypeError))) = Raise TypeError.
Proof.
  destruct (cd_restores_scope_stack
              {| cls := DebugContainer; data := []; _levels := ["outer"] |}
              "inner" (fun c => (c, Raise TypeError)) _ _ eq_refl)
    as (_ & R & _).
  exact (R eq_refl).
Defined.

(** Every program made of assignments, lookups, results, raises and nested
    [with debug.cd(...)] blocks is a body that leaves the stack as it found
    it, so a block around it restores the stack and ends as the body did. *)
Lemma cd_around_program self label prog :
  _levels (fst (cd self label (exec_body prog))) = _levels self /\
  snd (cd self label (exec_body prog)) =
    snd (exec_body prog (with_levels self (_levels self ++ [label]))).
Proof.
  pose proof (exec_body_keeps_levels prog
                (with_levels self (_levels self ++ [label]))) as K.
  destruct (exec_body prog (with_levels self (_levels self ++ [label])))
    as [after r] eqn:B.
  cbn [fst snd with_levels _levels] in *.
  unfold cd. rewrite B, K, pop_app, String.eqb_refl. now split.
Qed.

(** C9.  [result v] returns [v]; afterwards [v] is in the mapping under the
    labels of the open scopes joined by dots, with nothing added to that
    key; no other entry and no scope has changed.  Inside the one scope
    [outer] the key is ["outer"]. *)
Theorem result_stores_under_scope_path (self : container) (v : value) :
  snd (result self v) = v /\
  dict_get (KStr (join (_levels self))) (data (fst (result self v))) = Some v /\
  (forall k, k <> KStr (join (_levels self)) ->
     dict_get k (data (fst (result self v))) = dict_get k (data self)) /\
  _levels (fst (result self v)) = _levels self /\
  (_levels self = ["outer"] ->
     dict_get (KStr "outer") (data (fst (result self v))) = Some v).
Proof.
  unfold result, UserDict__setitem__. cbn [fst snd data _levels with_data].
  split; [reflexivity|]. split; [apply dict_get_set_same|].
  split; [|split; [reflexivity|]].
  - intros k N. now apply dict_get_set_other.
  - intros ->. apply (dict_get_set_same (KStr "outer")).
Qed.

End DebugContainerStatements.

(** ** NestedDict.update *)

Section UpdateFacts.
Import NestedDict.

Lemma no_dot_split k : no_dot k = true -> _split_key k = (k, None).
Proof.
  unfold no_dot. destruct (_split_key k) as [h [r|]] eqn:S; cbn [snd];
    [discriminate|].
  intros _. now rewrite (_split_key_flat _ _ S).
Qed.

Lemma items_dotfree_cons k v d :
  items_dotfree ((k, v) :: d) =
  (negb (is_dict v) || no_dot k) && dicts_dotfree v && items_dotfree d.
Proof. reflexivity. Qed.

Lemma items_depth_cons k v d :
  items_depth ((k, v) :: d) = Nat.max (vdepth v) (items_depth d).
Proof. reflexivity. Qed.

Lemma items_plain_depth_cons k v d :
  items_plain_depth ((k, v) :: d) =
  Nat.max (plain_depth v) (items_plain_depth d).
Proof. reflexivity. Qed.

Lemma items_dotfree_cons_inv k v d :
  items_dotfree ((k, v) :: d) = true ->
  (is_dict v = true -> no_dot k = true) /\
  dicts_dotfree v = true /\ items_dotfree d = true.
Proof.
  rewrite items_dotfree_cons. intros E.
  apply andb_prop in E as [E E3]. apply andb_prop in E as [E1 E2].
  repeat split; try assumption.
  intros D. rewrite D in E1. exact E1.
Qed.

Lemma items_convertible_cons k v d :
  items_convertible ((k, v) :: d) = plain_dotfree v && items_convertible d.
Proof. reflexivity. Qed.

Lemma lookup_convertible k v d :
  items_convertible d = true -> dict_get k d = Some v ->
  plain_dotfree v = true.
Proof.
  induction d as [|[k' v'] d IH]; cbn [dict_get]; [discriminate|].
  rewrite items_convertible_cons. intros F G.
  apply andb_prop in F as [F1 F2].
  destruct (key_eqb k k'); [now injection G as <-|auto].
Qed.

Lemma lookup_plain_depth k v d :
  dict_get k d = Some v -> plain_depth v <= items_plain_depth d.
Proof.
  induction d as [|[k' v'] d IH]; cbn [dict_get]; [discriminate|].
  rewrite items_plain_depth_cons. intros G.
  destruct (key_eqb k k'); [injection G as <-; lia|].
  specialize (IH G). lia.
Qed.

Lemma In_dotfree k v d :
  items_dotfree d = true -> In (k, v) d ->
  dicts_dotfree v = true /\ (is_dict v = true -> no_dot k = true).
Proof.
  induction d as [|[k' v'] d IH]; [contradiction|].
  intros F [E|I]; apply items_dotfree_cons_inv in F as (F1 & F2 & F3).
  - injection E as -> ->. now split.
  - now apply IH.
Qed.

Lemma In_depth k v d : In (k, v) d -> vdepth v <= items_depth d.
Proof.
  induction d as [|[k' v'] d IH]; [contradiction|].
  rewrite items_depth_cons. intros [E|I].
  - injection E as _ ->. lia.
  - specialize (IH I). lia.
Qed.

Lemma set_convertible k v d :
  items_convertible d = true -> plain_dotfree v = true ->
  items_convertible (dict_set k v d) = true.
Proof.
  intros F Fv. induction d as [|[k' v'] d IH]; cbn [dict_set].
  - rewrite items_convertible_cons, Fv. reflexivity.
  - rewrite items_convertible_cons in F. apply andb_prop in F as [F1 F2].
    destruct (key_eqb k k'); rewrite items_convertible_cons.
    + now rewrite Fv, F2.
    + now rewrite F1, IH.
Qed.

Lemma set_plain_depth k v d :
  items_plain_depth (dict_set k v d) <=
  Nat.max (plain_depth v) (items_plain_depth d).
Proof.
  induction d as [|[k' v'] d IH]; cbn [dict_set].
  - rewrite items_plain_depth_cons. lia.
  - destruct (key_eqb k k'); rewrite !items_plain_depth_cons; lia.
Qed.

Lemma dict_depth v :
  is_dict v = true -> vdepth v = S (items_depth (items_of v)).
Proof. destruct v; [discriminate|reflexivity|reflexivity]. Qed.

Lemma dict_dotfree v :
  dicts_dotfree v = true -> items_dotfree (items_of v) = true.
Proof. destruct v; intros F; [reflexivity|exact F|exact F]. Qed.

End UpdateFacts.

(** One call of [update], given what the calls it makes do. *)
Section UpdateStep.
Import NestedDict.

Variable upd : items -> items -> items * res unit.
Variable l : nat.
Hypothesis upd_ok : forall c o,
  items_convertible c = true -> items_dotfree o = true ->
  items_depth o + items_plain_depth c < l ->
  exists c', upd c o = (c', Ok tt) /\
             items_convertible c' = true /\
             items_plain_depth c' <= items_plain_depth c.

Lemma update_child_present s k v c0 c' :
  dict_get k s = Some (VNested c0) ->
  upd c0 (items_of v) = (c', Ok tt) ->
  update_child upd s k v = (dict_set k (VNested c') s, Ok tt).
Proof. intros G U. unfold update_child. now rewrite G, U. Qed.

Lemma update_child_after_set s k v c0 c' :
  upd c0 (items_of v) = (c', Ok tt) ->
  update_child upd (dict_set k (VNested c0) s) k v =
    (dict_set k (VNested c') s, Ok tt).
Proof.
  intros U.
  rewrite (update_child_present _ k v c0 c' (dict_get_set_same _ _ _) U).
  now rewrite dict_set_twice.
Qed.

Lemma setitem_flat s k v :
  _split_key k = (k, None) -> __setitem__ s k v = (dict_set k v s, Ok tt).
Proof. intros S. now rewrite setitem_eq, S. Qed.

Lemma getitem_flat_present s k v :
  _split_key k = (k, None) -> dict_get k s = Some v ->
  __getitem__ s k = (s, Ok v).
Proof.
  intros S G. now rewrite (getitem_flat _ _ S), (get_or_create_present _ _ _ G).
Qed.

(** The conversion of a plain [dict] that is held in the mapping. *)
Lemma init_ok s k p :
  items_convertible s = true -> dict_get k s = Some (VDict p) ->
  S (items_plain_depth s) <= l ->
  exists new, __init__ upd p = (new, Ok tt) /\
              items_convertible new = true /\ items_plain_depth new = 0.
Proof.
  intros F G L.
  pose proof (lookup_convertible _ _ _ F G) as Fp.
  change (items_dotfree p = true) in Fp.
  pose proof (lookup_plain_depth _ _ _ G) as Dp. cbn [plain_depth] in Dp.
  destruct p as [|kv p]; [now exists []|].
  destruct (upd_ok [] (kv :: p) eq_refl Fp) as (new & U & Fn & Dn).
  { change (items_plain_depth []) with 0. unfold items_depth. lia. }
  exists new. cbn [__init__]. rewrite U. repeat split; try assumption.
  change (items_plain_depth []) with 0 in Dn. lia.
Qed.

(** The loop body on a pair whose value is a mapping. *)
Lemma update_item_dict_ok s k v :
  items_convertible s = true ->
  is_dict v = true -> no_dot k = true -> dicts_dotfree v = true ->
  vdepth v + items_plain_depth s <= l ->
  exists c0 c',
    merge_target upd s k c0 /\
    items_convertible c0 = true /\
    items_plain_depth c0 <= items_plain_depth s /\
    upd c0 (items_of v) = (c', Ok tt) /\
    items_convertible c' = true /\
    items_plain_depth c' <= items_plain_depth s /\
    update_item upd s k v = (dict_set k (VNested c') s, Ok tt).
Proof.
  intros F D N Fv L.
  pose proof (no_dot_split _ N) as S.
  pose proof (dict_depth _ D) as Dv.
  pose proof (dict_dotfree _ Fv) as Fo.
  assert (M : forall c0, items_convertible c0 = true ->
                items_plain_depth c0 <= items_plain_depth s ->
                exists c', upd c0 (items_of v) = (c', Ok tt) /\
                           items_convertible c' = true /\
                           items_plain_depth c' <= items_plain_depth s).
  { intros c0 F0 D0. destruct (upd_ok c0 (items_of v) F0 Fo) as (c' & U & Fc & Dc).
    - lia.
    - exists c'. repeat split; try assumption. lia. }
  unfold update_item, merge_target. rewrite D.
  destruct (dict_get k s) as [[a|p|c]|] eqn:G.
  - (* a value that is not a mapping is replaced by a new NestedDict *)
    destruct (M [] eq_refl (Nat.le_0_l _)) as (c' & U & Fc & Dc).
    exists [], c'. repeat split; try assumption; try apply Nat.le_0_l.
    rewrite !(getitem_flat_present _ _ _ S G). cbn [is_NestedDict negb is_dict].
    rewrite (setitem_flat _ _ _ S).
    now apply update_child_after_set.
  - (* a plain dict is converted first *)
    destruct (init_ok s k p F G) as (new & I & Fn & Dn); [lia|].
    destruct (M new Fn) as (c' & U & Fc & Dc); [lia|].
    exists new, c'. repeat split; try assumption; try lia.
    rewrite !(getitem_flat_present _ _ _ S G). cbn [is_NestedDict negb is_dict].
    cbn [items_of]. rewrite I, (setitem_flat _ _ _ S).
    now apply update_child_after_set.
  - (* a NestedDict is merged into *)
    pose proof (lookup_convertible _ _ _ F G) as Fc0.
    pose proof (lookup_plain_depth _ _ _ G) as Dc0.
    destruct (M c Fc0 Dc0) as (c' & U & Fc & Dc).
    exists c, c'. repeat split; try assumption.
    rewrite (getitem_flat_present _ _ _ S G). cbn [is_NestedDict negb].
    now apply update_child_present with (c0 := c).
  - (* a missing key gets a new NestedDict *)
    destruct (M [] eq_refl (Nat.le_0_l _)) as (c' & U & Fc & Dc).
    exists [], c'. repeat split; try assumption; try apply Nat.le_0_l.
    rewrite (getitem_flat _ _ S), (get_or_create_absent _ _ G).
    cbn [is_NestedDict negb].
    now apply update_child_after_set.
Qed.

End UpdateStep.

Section UpdateLoop.
Import NestedDict.

Variable upd : items -> items -> items * res unit.
Variable l : nat.
Hypothesis upd_ok : forall c o,
  items_convertible c = true -> items_dotfree o = true ->
  items_depth o + items_plain_depth c < l ->
  exists c', upd c o = (c', Ok tt) /\
             items_convertible c' = true /\
             items_plain_depth c' <= items_plain_depth c.

Lemma merge_target_other_key s k x v c0 :
  k <> x -> merge_target upd (dict_set x v s) k c0 -> merge_target upd s k c0.
Proof.
  intros N. unfold merge_target. now rewrite dict_get_set_other.
Qed.

Lemma update_loop_ok other :
  forall s,
    items_convertible s = true -> items_dotfree other = true ->
    items_depth other + items_plain_depth s <= l ->
    exists s',
      update_loop upd s other = (s', Ok tt) /\
      items_convertible s' = true /\
      items_plain_depth s' <= items_plain_depth s /\
      merged upd s other s'.
Proof.
  induction other as [|[k v] rest IH]; intros s F Fo L.
  - exists s. repeat split; easy.
  - apply items_dotfree_cons_inv in Fo as (Nk & Fv & Fr).
    rewrite items_depth_cons in L.
    (* the first pair *)
    assert (Step : exists w,
      update_item upd s k v = (dict_set k w s, Ok tt) /\
      plain_dotfree w = true /\
      plain_depth w <= items_plain_depth s /\
      (if is_dict v then
         exists c0 c', merge_target upd s k c0 /\
           items_convertible c0 = true /\
           items_plain_depth c0 <= items_plain_depth s /\
           upd c0 (items_of v) = (c', Ok tt) /\ w = VNested c'
       else w = v)).
    { destruct (is_dict v) eqn:D.
      - destruct (update_item_dict_ok upd l upd_ok s k v F D (Nk eq_refl) Fv)
          as (c0 & c' & T & F0 & D0 & U & Fc & Dc & E); [lia|].
        exists (VNested c').
        split; [exact E|]. split; [exact Fc|]. split; [exact Dc|].
        exists c0, c'. repeat split; assumption.
      - exists v. unfold update_item. rewrite D.
        destruct v as [a|p|c]; try discriminate.
        split; [reflexivity|]. split; [reflexivity|].
        split; [apply Nat.le_0_l|reflexivity]. }
    destruct Step as (w & E & Fw & Dw & W).
    assert (F1 : items_convertible (dict_set k w s) = true)
      by now apply set_convertible.
    assert (D1 : items_plain_depth (dict_set k w s) <= items_plain_depth s).
    { pose proof (set_plain_depth k w s). lia. }
    destruct (IH (dict_set k w s) F1 Fr) as (s' & E' & F' & D' & Fr' & P');
      [lia|].
    exists s'. cbn [update_loop]. rewrite E.
    split; [exact E'|]. split; [exact F'|]. split; [lia|]. split.
    + intros x Nx. cbn [map fst] in Nx.
      rewrite Fr' by (intros I; apply Nx; now right).
      apply dict_get_set_other. intros ->. apply Nx. now left.
    + intros U k0 v0 I0. unfold distinct_keys in U. cbn [map fst] in U.
      apply NoDup_cons_iff in U as [Uk Ur].
      destruct I0 as [I0|I0].
      * injection I0 as <- <-.
        rewrite (Fr' k Uk), dict_get_set_same.
        destruct (is_dict v); [|now subst w].
        destruct W as (c0 & c' & T & F0 & D0 & U0 & ->).
        exists c0, c'. repeat split; assumption.
      * assert (N0 : k0 <> k).
        { intros ->. apply Uk. now apply (in_map fst) in I0. }
        specialize (P' Ur k0 v0 I0).
        destruct (is_dict v0); [|exact P'].
        destruct P' as (c0 & c' & T & F0 & D0 & U0 & G0).
        exists c0, c'. repeat split; try assumption; try lia.
        now apply merge_target_other_key in T.
Qed.

End UpdateLoop.

Section UpdateTotal.
Import NestedDict.

(** [update] returns when no key with a dot holds a mapping in the argument
    or in a plain [dict] to convert, once the bound on nested calls exceeds the depth of the argument plus
    the depth of the plain dicts to convert. *)
Lemma update_ok limit :
  forall d other,
    items_convertible d = true -> items_dotfree other = true ->
    items_depth other + items_plain_depth d < limit ->
    exists d',
      update limit d other = (d', Ok tt) /\
      items_convertible d' = true /\
      items_plain_depth d' <= items_plain_depth d /\
      merged (update (Nat.pred limit)) d other d'.
Proof.
  induction limit as [|l IH]; intros d other F Fo L; [lia|].
  cbn [update Nat.pred].
  apply (update_loop_ok (update l) l); try assumption; [|lia].
  intros c o Fc Fo' Lc.
  destruct (IH c o Fc Fo' Lc) as (c' & E & F' & D' & _).
  exists c'. repeat split; assumption.
Qed.

End UpdateTotal.

Section UpdateStatement.
Import NestedDict.

(** [update] merges, where its two ways to read a key agree.  Take an
    argument whose keys are distinct and in which no key with a dot holds a
    mapping, at any depth, and a [NestedDict] whose plain dicts are so too.
    Then [update] returns, once the bound on nested calls exceeds the depth
    of the argument plus that of the plain dicts held; keys that are not in
    the argument keep their entries; and for every pair of the argument:
    - a value that is not a mapping is the entry of the key afterwards,
      whatever was there;
    - a mapping leaves a [NestedDict] at the key, which holds every pair of
      the mapping whose value is not a mapping; when a [NestedDict] was
      there, its entries at keys that the mapping does not name are as
      before; when a plain [dict] was there, its entries that are not
      mappings, at keys that the mapping does not name, are as before. *)
Theorem update_merges_recursively limit d other :
  items_convertible d = true ->
  items_dotfree other = true ->
  distinct_keys other ->
  items_depth other + items_plain_depth d < limit ->
  exists d',
    update limit d other = (d', Ok tt) /\
    (forall x, ~ In x (map fst other) -> dict_get x d' = dict_get x d) /\
    forall key val, In (key, val) other ->
      if is_dict val then
        exists c',
          dict_get key d' = Some (VNested c') /\
          (distinct_keys (items_of val) ->
           forall y u, In (y, u) (items_of val) -> is_dict u = false ->
             dict_get y c' = Some u) /\
          (forall c, dict_get key d = Some (VNested c) ->
           forall x, ~ In x (map fst (items_of val)) ->
             dict_get x c' = dict_get x c) /\
          (forall p, dict_get key d = Some (VDict p) -> distinct_keys p ->
           forall x a, In (x, VLeaf a) p ->
             ~ In x (map fst (items_of val)) ->
             dict_get x c' = Some (VLeaf a))
      else dict_get key d' = Some val.
Proof.
  intros F Fo U L.
  destruct limit as [|l]; [lia|].
  destruct (update_ok (S l) d other F Fo L) as (d' & E & _ & _ & Fr & P).
  cbn [Nat.pred] in P.
  exists d'. split; [exact E|]. split; [exact Fr|].
  intros key val I. specialize (P U key val I).
  destruct (is_dict val) eqn:D; [|exact P].
  destruct P as (c0 & c' & T & F0 & D0 & U0 & G).
  destruct (In_dotfree _ _ _ Fo I) as (Fv & _).
  pose proof (In_depth _ _ _ I) as Dv. rewrite (dict_depth _ D) in Dv.
  destruct (update_ok l c0 (items_of val) F0 (dict_dotfree _ Fv))
    as (c'' & E0 & _ & _ & Fr0 & P0); [lia|].
  rewrite U0 in E0. injection E0 as <-.
  exists c'. split; [exact G|]. split; [|split].
  - intros Uv y u Iy Du. specialize (P0 Uv y u Iy). now rewrite Du in P0.
  - intros c Gc x Nx. unfold merge_target in T. rewrite Gc in T. subst c0.
    now apply Fr0.
  - intros p Gp Up x a Ix Nx. rewrite (Fr0 x Nx).
    unfold merge_target in T. rewrite Gp in T.
    destruct p as [|kv p]; [contradiction|]. cbn [__init__] in T.
    pose proof (lookup_convertible _ _ _ F Gp) as Fp.
    change (items_dotfree (kv :: p) = true) in Fp.
    pose proof (lookup_plain_depth _ _ _ Gp) as Dp. cbn [plain_depth] in Dp.
    destruct (update_ok l [] (kv :: p) eq_refl Fp)
      as (new & En & _ & _ & _ & Pn).
    { change (items_plain_depth []) with 0. unfold items_depth. lia. }
    rewrite T in En. injection En as <-.
    specialize (Pn Up x (VLeaf a) Ix). exact Pn.
Qed.

(** The mapping of the description: [NestedDict({"a": {"x": 1}})] keeps
    [x] and gains [y] under [a] when updated with [{"a": {"y": 2}}], and
    [{"a": 5}] overwrites the nested mapping. *)
Lemma update_merges_recursively_axy :
  (exists d' c',
     update 2 [("a", VNested [("x", VLeaf (AInt 1))])]
              [("a", VDict [("y", VLeaf (AInt 2))])] = (d', Ok tt) /\
     dict_get "a" d' = Some (VNested c') /\
     dict_get "x" c' = Some (VLeaf (AInt 1)) /\
     dict_get "y" c' = Some (VLeaf (AInt 2))) /\
  (exists d',
     update 1 [("a", VNested [("x", VLeaf (AInt 1))])]
              [("a", VLeaf (AInt 5))] = (d', Ok tt) /\
     dict_get "a" d' = Some (VLeaf (AInt 5))).
Proof.
  assert (U1 : forall k v, distinct_keys [(k, v)]).
  { intros k v. apply NoDup_cons; [intros []|apply NoDup_nil]. }
  split.
  - destruct (update_merges_recursively 2
                [("a", VNested [("x", VLeaf (AInt 1))])]
                [("a", VDict [("y", VLeaf (AInt 2))])]
                eq_refl eq_refl (U1 _ _)) as (d' & E & _ & P).
    { cbn. lia. }
    specialize (P "a" _ (or_introl eq_refl)). cbn [is_dict] in P.
    destruct P as (c' & G & Py & Px & _).
    exists d', c'. split; [exact E|]. split; [exact G|]. split.
    + rewrite (Px _ eq_refl "x"); [reflexivity|].
      cbn. intros [H|[]]. discriminate H.
    + apply Py; [apply U1|now left|reflexivity].
  - destruct (update_merges_recursively 1
                [("a", VNested [("x", VLeaf (AInt 1))])]
                [("a", VLeaf (AInt 5))]
                eq_refl eq_refl (U1 _ _)) as (d' & E & _ & P).
    { cbn. lia. }
    exists d'. split; [exact E|].
    exact (P "a" _ (or_introl eq_refl)).
Defined.

(** C6, where the code departs from it.  For a dotted key paired with a
    mapping nothing is merged: [self[key]] creates the [NestedDict] at the
    split key, or finds it, [super().__getitem__(key)] then reads the unsplit
    key, and [update] raises [KeyError] for it.  The same key paired with a
    value that is not a mapping is stored without an error. *)
Lemma update_with_dotted_key_and_mapping_raises :
  update 5 [] [("a.b", VDict [("y", VLeaf (AInt 2))])] =
    ([("a", VNested [("b", VNested [])])], Raise (KeyError "a.b")) /\
  update 5 [("a", VNested [("b", VNested [("x", VLeaf (AInt 1))])])]
           [("a.b", VDict [("y", VLeaf (AInt 2))])] =
    ([("a", VNested [("b", VNested [("x", VLeaf (AInt 1))])])],
     Raise (KeyError "a.b")) /\
  update 5 [] [("a.b", VLeaf (AInt 2))] = ([("a.b", VLeaf (AInt 2))], Ok tt).
Proof. repeat split; reflexivity. Qed.

End UpdateStatement.

(** * Further properties *)

(** ** NestedDict: keys *)

Section MoreOnKeys.
Import NestedDict.

Lemma _split_key_join key k r :
  _split_key key = (k, Some r) -> key = k ++ "." ++ r.
Proof.
  revert k r. induction key as [|c s IH]; simpl; intros k r E.
  - discriminate.
  - destruct (Ascii.eqb c dot) eqn:D.
    + injection E as <- <-. apply Ascii.eqb_eq in D. now subst c.
    + destruct (_split_key s) as [k' nk'] eqn:S. injection E as <- ->.
      simpl. f_equal. exact (IH _ _ eq_refl).
Qed.

Lemma no_dot_head key k nk : _split_key key = (k, nk) -> no_dot k = true.
Proof.
  intros S. unfold no_dot. now rewrite (_split_key_head _ _ _ S).
Qed.

(** [_split_key] cuts a key at its first dot and nowhere else: the first
    part has no dot, the two parts joined by a dot are the key again, and the
    first part followed by a dot and any rest splits back into the two. *)
Theorem split_key_cuts_at_first_dot key k nk :
  _split_key key = (k, nk) ->
  no_dot k = true /\
  key = match nk with Some r => k ++ "." ++ r | None => k end /\
  forall r', _split_key (k ++ "." ++ r') = (k, Some r').
Proof.
  intros S. split; [now apply (no_dot_head _ _ _ S)|]. split.
  - destruct nk as [r|].
    + now apply _split_key_join.
    + symmetry. now apply _split_key_flat.
  - intros r'. pose proof (_split_key_head _ _ _ S) as Hk.
    destruct (_split_key_app k r') as [[_ E]|(h & p' & E & _)];
      [exact E|congruence].
Qed.

Lemma split_key_cuts_at_first_dot_abc :
  _split_key "a.b.c" = ("a", Some "b.c") /\
  no_dot "a" = true /\
  _split_key ("a" ++ "." ++ "x.y") = ("a", Some "x.y").
Proof.
  split; [reflexivity|].
  destruct (split_key_cuts_at_first_dot "a.b.c" "a" (Some "b.c") eq_refl)
    as (N & _ & J).
  split; [exact N|apply J].
Defined.

End MoreOnKeys.

(** ** NestedDict: assignment, lookup and deletion on any mapping *)

Section MoreOnPaths.
Import NestedDict.

(** Assignment along a path of [NestedDict]s returns, the lookup of the same
    key that follows returns the value and changes nothing, the path is
    still one of [NestedDict]s, and the entries of the other first segments
    are as before. *)
Theorem setitem_then_getitem_anywhere d key v :
  nested_along d key ->
  exists d',
    __setitem__ d key v = (d', Ok tt) /\
    __getitem__ d' key = (d', Ok v) /\
    (forall x, x <> fst (_split_key key) -> dict_get x d' = dict_get x d).
Proof.
  induction 1 as [d key k nk S T|d key k r S T G _ IH|d key k r c S T G _ IH];
    rewrite setitem_eq, S; cbn [fst].
  - exists (dict_set k v d).
    assert (E : __setitem__ d key v = (dict_set k v d, Ok tt)).
    { rewrite setitem_eq, S. destruct nk as [r|]; [now rewrite T|reflexivity]. }
    rewrite setitem_eq, S in E. split; [exact E|]. split.
    + rewrite getitem_eq, S,
        (get_or_create_present _ _ _ (dict_get_set_same _ _ _)).
      destruct nk as [r|]; [now rewrite T|reflexivity].
    + intros x N. now apply dict_get_set_other.
  - destruct IH as (c' & Es & Eg & _).
    pose proof (_split_key_head _ _ _ S) as Hk.
    rewrite T, (getitem_flat _ _ Hk), (get_or_create_absent _ _ G), Es.
    cbv beta iota. rewrite dict_set_twice.
    exists (dict_set k (VNested c') d). split; [reflexivity|]. split.
    + rewrite getitem_eq, S,
        (get_or_create_present _ _ _ (dict_get_set_same _ _ _)), T, Eg.
      cbv beta iota. now rewrite dict_set_twice.
    + intros x N. now apply dict_get_set_other.
  - destruct IH as (c' & Es & Eg & _).
    pose proof (_split_key_head _ _ _ S) as Hk.
    rewrite T, (getitem_flat _ _ Hk), (get_or_create_present _ _ _ G), Es.
    cbv beta iota.
    exists (dict_set k (VNested c') d). split; [reflexivity|]. split.
    + rewrite getitem_eq, S,
        (get_or_create_present _ _ _ (dict_get_set_same _ _ _)), T, Eg.
      cbv beta iota. now rewrite dict_set_twice.
    + intros x N. now apply dict_get_set_other.
Qed.

(** [d["a.b"] = 7] where [a] holds a [NestedDict] with another entry. *)
Lemma setitem_then_getitem_anywhere_ab :
  exists d',
    __setitem__ [("a", VNested [("x", VLeaf ANone)]); ("z", VLeaf ANone)]
      "a.b" (VLeaf (AInt 7)) = (d', Ok tt) /\
    __getitem__ d' "a.b" = (d', Ok (VLeaf (AInt 7))) /\
    dict_get "z" d' = Some (VLeaf ANone).
Proof.
  destruct (setitem_then_getitem_anywhere
              [("a", VNested [("x", VLeaf ANone)]); ("z", VLeaf ANone)]
              "a.b" (VLeaf (AInt 7))) as (d' & Es & Eg & F).
  { eapply along_step; [reflexivity|reflexivity|reflexivity|].
    eapply along_last; reflexivity. }
  exists d'. split; [exact Es|]. split; [exact Eg|].
  rewrite (F "z"); [reflexivity|discriminate].
Defined.

(** Nothing fails in a new mapping. *)
Lemma getitem_empty_returns key : exists d v, __getitem__ [] key = (d, Ok v).
Proof.
  destruct (getitem_along [] key (nested_along_empty key))
    as (d & v & E & _).
  now exists d, v.
Qed.

Lemma setitem_empty_returns key v : exists d, __setitem__ [] key v = (d, Ok tt).
Proof.
  destruct (set_then_get_bounded (S (String.length key)) key v
              (Nat.lt_succ_diag_r _)) as (d & E & _).
  now exists d.
Qed.

Lemma getitem_failure_bounded n :
  forall key d d' e, String.length key < n ->
    __getitem__ d key = (d', Raise e) -> d' = d.
Proof.
  induction n as [|n IH]; intros key d d' e L E; [lia|].
  rewrite getitem_eq in E.
  destruct (_split_key key) as [k [r|]] eqn:S.
  - pose proof (_split_key_shorter _ _ _ S) as Lr.
    destruct (dict_get k d) as [val|] eqn:G.
    + rewrite (get_or_create_present _ _ _ G) in E.
      destruct (truthy (Some r)); [|discriminate].
      destruct val as [a|child|child].
      * now injection E as <- _.
      * destruct (dict_get r child); [discriminate|now injection E as <- _].
      * destruct (__getitem__ child r) as [child' res] eqn:Ec.
        injection E as <- ->.
        rewrite (IH r child child' e) by (lia || assumption).
        now apply dict_set_same_value.
    + rewrite (get_or_create_absent _ _ G) in E.
      destruct (truthy (Some r)); [|discriminate].
      destruct (getitem_empty_returns r) as (c' & v & Ec).
      rewrite Ec in E. discriminate.
  - destruct (get_or_create d k). discriminate.
Qed.

Lemma setitem_failure_bounded n :
  forall key d v d' e, String.length key < n ->
    __setitem__ d key v = (d', Raise e) -> d' = d.
Proof.
  induction n as [|n IH]; intros key d v d' e L E; [lia|].
  rewrite setitem_eq in E.
  destruct (_split_key key) as [k [r|]] eqn:S; [|discriminate].
  pose proof (_split_key_shorter _ _ _ S) as Lr.
  pose proof (_split_key_head _ _ _ S) as Hk.
  destruct (truthy (Some r)); [|discriminate].
  rewrite (getitem_flat _ _ Hk) in E.
  destruct (dict_get k d) as [val|] eqn:G.
  - rewrite (get_or_create_present _ _ _ G) in E.
    destruct val as [a|child|child].
    + now injection E as <- _.
    + discriminate.
    + destruct (__setitem__ child r v) as [child' res] eqn:Ec.
      injection E as <- ->.
      rewrite (IH r child v child' e) by (lia || assumption).
      now apply dict_set_same_value.
  - rewrite (get_or_create_absent _ _ G) in E.
    destruct (setitem_empty_returns r v) as (c' & Ec).
    rewrite Ec in E. discriminate.
Qed.

Lemma delitem_failure_bounded n :
  forall key d d' e, String.length key < n ->
    __delitem__ d key = (d', Raise e) -> d' = d.
Proof.
  induction n as [|n IH]; intros key d d' e L E; [lia|].
  rewrite delitem_eq in E.
  destruct (_split_key key) as [k [r|]] eqn:S.
  - pose proof (_split_key_shorter _ _ _ S) as Lr.
    destruct (truthy (Some r)).
    + destruct (dict_get k d) as [[a|child|child]|] eqn:G.
      * now injection E as <- _.
      * destruct (dict_del r child); [discriminate|now injection E as <- _].
      * destruct (__delitem__ child r) as [child' res] eqn:Ec.
        injection E as <- ->.
        rewrite (IH r child child' e) by (lia || assumption).
        now apply dict_set_same_value.
      * now injection E as <- _.
    + destruct (dict_del k d); [discriminate|now injection E as <- _].
  - destruct (dict_del k d); [discriminate|now injection E as <- _].
Qed.

(** A lookup, an assignment or a deletion that raises leaves the mapping as
    it was: what a lookup creates on its way, it creates only where nothing
    can fail any more. *)
Theorem failure_changes_nothing d key v d' e :
  (__getitem__ d key = (d', Raise e) -> d' = d) /\
  (__setitem__ d key v = (d', Raise e) -> d' = d) /\
  (__delitem__ d key = (d', Raise e) -> d' = d).
Proof.
  split; [|split].
  - apply (getitem_failure_bounded (S (String.length key))), Nat.lt_succ_diag_r.
  - apply (setitem_failure_bounded (S (String.length key))), Nat.lt_succ_diag_r.
  - apply (delitem_failure_bounded (S (String.length key))), Nat.lt_succ_diag_r.
Qed.

(** The three ways to fail on [{"a": {"b": 5}}]: below a value that is not a
    mapping, and at a missing last segment. *)
Lemma failure_changes_nothing_ab :
  fst (__getitem__ [("a", VNested [("b", VLeaf (AInt 5))])] "a.b.c")
    = [("a", VNested [("b", VLeaf (AInt 5))])] /\
  fst (__setitem__ [("a", VNested [("b", VLeaf (AInt 5))])] "a.b.c"
         (VLeaf ANone))
    = [("a", VNested [("b", VLeaf (AInt 5))])] /\
  fst (__delitem__ [("a", VNested [("b", VLeaf (AInt 5))])] "a.x")
    = [("a", VNested [("b", VLeaf (AInt 5))])].
Proof.
  split; [|split].
  - apply (proj1 (failure_changes_nothing
                    [("a", VNested [("b", VLeaf (AInt 5))])] "a.b.c"
                    (VLeaf ANone) _ TypeError)).
    reflexivity.
  - apply (proj1 (proj2 (failure_changes_nothing
                    [("a", VNested [("b", VLeaf (AInt 5))])] "a.b.c"
                    (VLeaf ANone) _ TypeError))).
    reflexivity.
  - apply (proj2 (proj2 (failure_changes_nothing
                    [("a", VNested [("b", VLeaf (AInt 5))])] "a.x"
                    (VLeaf ANone) _ (KeyError "x")))).
    reflexivity.
Defined.

Lemma set_then_del_bounded n :
  forall key v, String.length key < n ->
  exists d1 d2,
    __setitem__ [] key v = (d1, Ok tt) /\
    __delitem__ d1 key = (d2, Ok tt) /\
    (exists s, __delitem__ d2 key = (d2, Raise (KeyError s))) /\
    (forall p r, key = p ++ "." ++ r -> r <> EmptyString ->
       exists c, __getitem__ d2 p = (d2, Ok (VNested c))).
Proof.
  induction n as [|n IH]; intros key v L; [lia|].
  rewrite setitem_eq.
  destruct (_split_key key) as [k nk] eqn:S.
  destruct (truthy nk) eqn:T.
  - destruct nk as [r0|]; [|discriminate]. rewrite T.
    pose proof (_split_key_head _ _ _ S) as Hk.
    destruct (IH r0 v) as (c1 & c2 & Es & Ed & (s & Ed2) & Ep).
    { pose proof (_split_key_shorter _ _ _ S). lia. }
    rewrite (getitem_flat [] k Hk). unfold get_or_create.
    cbn [dict_get dict_set]. rewrite Es. tidy.
    exists [(k, VNested c1)], [(k, VNested c2)].
    split; [reflexivity|]. split; [|split].
    + rewrite delitem_eq, S, T, single_get, Ed. now tidy.
    + exists s. rewrite delitem_eq, S, T, single_get, Ed2. now tidy.
    + eapply prefix_lookup; eauto using single_get.
  - exists [(k, v)], [].
    assert (D : forall d : items, __delitem__ d key =
              match dict_del k d with
              | Some d' => (d', Ok tt)
              | None => (d, Raise (KeyError k))
              end).
    { intros d. rewrite delitem_eq, S.
      destruct nk as [r0|]; [now rewrite T|reflexivity]. }
    split; [destruct nk as [r0|]; [now rewrite T|reflexivity]|].
    split; [|split].
    + rewrite D. cbn [dict_del]. now rewrite key_eqb_refl.
    + exists k. now rewrite D.
    + intros p r Hk Hr. exfalso. eapply no_prefix_of_last; eauto.
Qed.

(** Deletion takes out the entry of the last segment and nothing else.
    After [d[key] = v] on a new [NestedDict], [del d[key]] returns; a second
    [del d[key]] raises [KeyError]; and the mappings that the assignment
    created for the prefixes of the key are still there, empty or not:
    every proper prefix still leads to a [NestedDict]. *)
Theorem delitem_keeps_the_prefixes (key : string) (v : value) :
  exists d1 d2,
    __setitem__ [] key v = (d1, Ok tt) /\
    __delitem__ d1 key = (d2, Ok tt) /\
    (exists s, __delitem__ d2 key = (d2, Raise (KeyError s))) /\
    (forall p r, key = p ++ "." ++ r -> r <> EmptyString ->
       exists c, __getitem__ d2 p = (d2, Ok (VNested c))).
Proof.
  apply (set_then_del_bounded (S (String.length key))), Nat.lt_succ_diag_r.
Qed.

(** After [d["a.b"] = 7] and [del d["a.b"]], [d] is [{"a": {}}]. *)
Lemma delitem_keeps_the_prefixes_ab :
  exists d1 d2,
    __setitem__ [] "a.b" (VLeaf (AInt 7)) = (d1, Ok tt) /\
    __delitem__ d1 "a.b" = (d2, Ok tt) /\
    (exists c, __getitem__ d2 "a" = (d2, Ok (VNested c))).
Proof.
  destruct (delitem_keeps_the_prefixes "a.b" (VLeaf (AInt 7)))
    as (d1 & d2 & Es & Ed & _ & P).
  exists d1, d2. split; [exact Es|]. split; [exact Ed|].
  apply (P "a" "b"); [reflexivity|discriminate].
Defined.

End MoreOnPaths.

(** ** NestedDict: what [update] stores is found by its dotted key *)

Section UpdateThenLookup.
Import NestedDict.

(** The pairs of a mapping of the argument, one level down. *)
Lemma update_stores_child_pairs limit d other k sub :
  items_convertible d = true ->
  items_dotfree other = true ->
  distinct_keys other ->
  items_depth other + items_plain_depth d < limit ->
  In (k, sub) other -> is_dict sub = true ->
  distinct_keys (items_of sub) ->
  exists d' c',
    update limit d other = (d', Ok tt) /\
    dict_get k d' = Some (VNested c') /\
    forall y u, In (y, u) (items_of sub) -> is_dict u = false ->
      dict_get y c' = Some u.
Proof.
  intros F Fo U L I D Us.
  destruct limit as [|l]; [lia|].
  destruct (update_ok (S l) d other F Fo L) as (d' & E & _ & _ & _ & P).
  cbn [Nat.pred] in P. specialize (P U k sub I). rewrite D in P.
  destruct P as (c0 & c' & _ & F0 & D0 & U0 & G).
  destruct (In_dotfree _ _ _ Fo I) as (Fv & _).
  pose proof (In_depth _ _ _ I) as Dv. rewrite (dict_depth _ D) in Dv.
  destruct (update_ok l c0 (items_of sub) F0 (dict_dotfree _ Fv))
    as (c'' & E0 & _ & _ & _ & P0); [lia|].
  rewrite U0 in E0. injection E0 as <-.
  exists d', c'. split; [exact E|]. split; [exact G|].
  intros y u Iy Du. specialize (P0 Us y u Iy). now rewrite Du in P0.
Qed.

(** [update] and lookup compose: after [d.update(other)], where [other]
    pairs [k] with a mapping that pairs [y] with a value that is not a
    mapping, [d["k.y"]] is that value, and the lookup changes nothing.  The
    keys that hold mappings have no dot, [y] has none and is not empty, and
    the keys of [other] and of the mapping are distinct. *)
Theorem update_then_getitem_by_path limit d other k sub y u :
  items_convertible d = true ->
  items_dotfree other = true ->
  distinct_keys other ->
  items_depth other + items_plain_depth d < limit ->
  In (k, sub) other -> is_dict sub = true ->
  distinct_keys (items_of sub) ->
  In (y, u) (items_of sub) -> is_dict u = false ->
  no_dot y = true -> y <> EmptyString ->
  exists d',
    update limit d other = (d', Ok tt) /\
    __getitem__ d' (k ++ "." ++ y) = (d', Ok u).
Proof.
  intros F Fo U L I D Us Iy Du Ny Hy.
  destruct (update_stores_child_pairs limit d other k sub F Fo U L I D Us)
    as (d' & c' & E & G & P).
  exists d'. split; [exact E|].
  destruct (In_dotfree _ _ _ Fo I) as (_ & Nk). specialize (Nk D).
  pose proof (no_dot_split _ Nk) as Sk.
  destruct (_split_key_app k y) as [[_ S]|(h & p' & S' & _)]; [|congruence].
  rewrite getitem_eq, S, (get_or_create_present _ _ _ G).
  rewrite (proj2 (truthy_Some y) Hy).
  rewrite (getitem_flat_present c' y u (no_dot_split _ Ny) (P y u Iy Du)).
  cbv beta iota. now rewrite (dict_set_same_value _ _ _ G).
Qed.

(** [NestedDict({"a": {"x": 1}})["a.x"]] is 1. *)
Lemma update_then_getitem_by_path_ax :
  exists d',
    update 2 [] [("a", VDict [("x", VLeaf (AInt 1))])] = (d', Ok tt) /\
    __getitem__ d' "a.x" = (d', Ok (VLeaf (AInt 1))).
Proof.
  apply (update_then_getitem_by_path 2 []
           [("a", VDict [("x", VLeaf (AInt 1))])] "a"
           (VDict [("x", VLeaf (AInt 1))]) "x" (VLeaf (AInt 1)));
    try reflexivity; try (now left); try discriminate;
    try (apply NoDup_cons; [intros []|apply NoDup_nil]).
Defined.

End UpdateThenLookup.

(** ** NestedDict: the constructor converts at every depth *)

Section Constructor.
Import NestedDict.

Lemma plain_depth_0_all_nested v : plain_depth v = 0 -> all_nested v = true.
Proof.
  induction v as [a|d IH|d IH] using value_nested_ind.
  - reflexivity.
  - discriminate.
  - induction IH as [|[k x] d Hx _ IHd]; [reflexivity|].
    intros E. cbn [snd] in Hx.
    change (items_plain_depth ((k, x) :: d) = 0) in E.
    rewrite items_plain_depth_cons in E.
    change (all_nested x && all_nested (VNested d) = true).
    rewrite Hx, IHd by (unfold items_plain_depth in E; lia). reflexivity.
Qed.

(** [NestedDict(dct)] of a plain [dict], plain dicts inside it at any depth,
    returns a mapping that holds no plain [dict] at any depth: the
    constructor converts all the way down.  No key of [dct] with a dot holds
    a mapping, and the bound on nested calls exceeds the depth of [dct]. *)
Theorem constructor_converts_at_every_depth limit dct :
  items_dotfree dct = true ->
  items_depth dct < limit ->
  exists d,
    __init__ (update limit) dct = (d, Ok tt) /\
    all_nested (VNested d) = true.
Proof.
  intros F L. destruct dct as [|kv dct]; [now exists []|].
  destruct (update_ok limit [] (kv :: dct) eq_refl F) as (d & E & _ & D & _).
  { change (items_plain_depth []) with 0. lia. }
  exists d. split; [exact E|].
  apply plain_depth_0_all_nested.
  change (items_plain_depth []) with 0 in D.
  unfold items_plain_depth in D. lia.
Qed.

(** [NestedDict({"a": {"b": {"x": 1}}})]. *)
Lemma constructor_converts_at_every_depth_abx :
  __init__ (update 3) [("a", VDict [("b", VDict [("x", VLeaf (AInt 1))])])] =
    ([("a", VNested [("b", VNested [("x", VLeaf (AInt 1))])])], Ok tt) /\
  exists d,
    __init__ (update 3) [("a", VDict [("b", VDict [("x", VLeaf (AInt 1))])])]
      = (d, Ok tt) /\
    all_nested (VNested d) = true.
Proof.
  split; [reflexivity|].
  apply constructor_converts_at_every_depth; [reflexivity|cbn; lia].
Defined.

End Constructor.

(** ** DebugContainer: assignment, lookup and scopes *)

Section MoreOnDebugContainer.
Import DebugContainer.

Lemma setitem_DebugContainer self k val :
  cls self = DebugContainer ->
  __setitem__ self k val =
    with_data self (dict_set (_getkey self k) (stored val) (data self)).
Proof. intros C. unfold __setitem__. now rewrite C. Qed.

Lemma _getkey_with_data self d k : _getkey (with_data self d) k = _getkey self k.
Proof. reflexivity. Qed.

(** In any scope, [debug[k] = val] followed by [debug[k]] returns what was
    stored, a tensor detached and on the host and any other value as it
    is, and the lookup changes nothing. *)
Theorem debug_setitem_then_getitem self k val :
  cls self = DebugContainer ->
  __getitem__ (__setitem__ self k val) k =
    (__setitem__ self k val, stored val) /\
  detached_on_host (stored val).
Proof.
  intros C. rewrite (setitem_DebugContainer _ _ _ C). split.
  - unfold __getitem__. rewrite _getkey_with_data. cbn [data with_data].
    now rewrite dict_get_set_same.
  - destruct val; cbn; auto.
Qed.

(** A tensor of a graph on a device, assigned and read inside [outer]. *)
Lemma debug_setitem_then_getitem_outer :
  snd (__getitem__
         (__setitem__
            {| cls := DebugContainer; data := []; _levels := ["outer"] |}
            (KStr "x")
            (VTensor {| numbers := [1%Z]; in_graph := true; where_ := CUDA 0 |}))
         (KStr "x")) =
    VTensor {| numbers := [1%Z]; in_graph := false; where_ := CPU |}.
Proof.
  destruct (debug_setitem_then_getitem
              {| cls := DebugContainer; data := []; _levels := ["outer"] |}
              (KStr "x")
              (VTensor {| numbers := [1%Z]; in_graph := true;
                          where_ := CUDA 0 |}) eq_refl) as [E _].
  rewrite E. reflexivity.
Defined.

(** The rule for integer keys.  With no scope open an integer key is used
    as it is: assigning under it leaves the entry of its decimal string
    alone.  Inside a scope the integer and its decimal string resolve to the
    same key, so what is assigned under one is found under the other. *)
Theorem integer_key_rule self z val :
  cls self = DebugContainer ->
  (_levels self = [] ->
     _getkey self (KInt z) = KInt z /\
     dict_get (KStr (str (KInt z))) (data (__setitem__ self (KInt z) val)) =
       dict_get (KStr (str (KInt z))) (data self)) /\
  (_levels self <> [] ->
     _getkey self (KInt z) = _getkey self (KStr (str (KInt z))) /\
     __getitem__ (__setitem__ self (KInt z) val) (KStr (str (KInt z))) =
       (__setitem__ self (KInt z) val, stored val)).
Proof.
  intros C. split; intros L.
  - assert (K : _getkey self (KInt z) = KInt z)
      by (unfold _getkey; now rewrite L).
    split; [exact K|].
    rewrite (setitem_DebugContainer _ _ _ C), K. cbn [data with_data].
    apply dict_get_set_other. discriminate.
  - assert (K : _getkey self (KInt z) = _getkey self (KStr (str (KInt z)))).
    { unfold _getkey. destruct (_levels self); [congruence|reflexivity]. }
    split; [exact K|].
    rewrite (setitem_DebugContainer _ _ _ C).
    unfold __getitem__. rewrite _getkey_with_data, <- K. cbn [data with_data].
    now rewrite dict_get_set_same.
Qed.

Lemma integer_key_rule_3 :
  data (__setitem__ (new DebugContainer) (KInt 3) (VOther 7)) =
    [(KInt 3, VOther 7)] /\
  dict_get (KStr "3")
    (data (__setitem__ (new DebugContainer) (KInt 3) (VOther 7))) = None /\
  snd (__getitem__
         (__setitem__
            {| cls := DebugContainer; data := []; _levels := ["outer"] |}
            (KInt 3) (VOther 7))
         (KStr "3")) = VOther 7.
Proof.
  split; [reflexivity|].
  destruct (integer_key_rule (new DebugContainer) 3 (VOther 7) eq_refl)
    as [T _].
  destruct (integer_key_rule
              {| cls := DebugContainer; data := []; _levels := ["outer"] |}
              3 (VOther 7) eq_refl) as [_ I].
  split.
  - exact (eq_trans (proj2 (T eq_refl)) eq_refl).
  - exact (f_equal snd (proj2 (I ltac:(discriminate)))).
Defined.

End MoreOnDebugContainer.

(** ** DebugContainer: programs and scopes *)

Section Programs.
Import DebugContainer.

Lemma exec_body_app a b c :
  exec_body (a ++ b) c =
  match exec_body a c with
  | (c', Ok _) => exec_body b c'
  | (c', Raise e) => (c', Raise e)
  end.
Proof.
  revert c. induction a as [|s a IH]; intros c; cbn [exec_body app].
  - reflexivity.
  - destruct (exec s c) as [c' [u|e]]; [apply IH|reflexivity].
Qed.

Lemma exec_outcome s :
  forall self,
    snd (exec s self) = Ok tt \/
    exists e, In e (raised s) /\ snd (exec s self) = Raise e.
Proof.
  induction s as [k val|k|val|e|label body IH] using stmt_nested_ind;
    intros self; cbn [exec snd raised].
  - now left.
  - now left.
  - now left.
  - right. exists e. split; [now left|reflexivity].
  - change (snd (cd self label (exec_body body)) = Ok tt \/
            exists e, In e (flat_map raised body) /\
                      snd (cd self label (exec_body body)) = Raise e).
    assert (B : forall c,
               snd (exec_body body c) = Ok tt \/
               exists e, In e (flat_map raised body) /\
                         snd (exec_body body c) = Raise e).
    { induction IH as [|s' b' Hs _ IHb]; intros c; cbn [exec_body flat_map].
      - now left.
      - specialize (Hs c). destruct (exec s' c) as [c' [u|e']]; cbn [snd] in *.
        + destruct (IHb c') as [E|(e & I & E)]; [now left|].
          right. exists e. split; [apply in_or_app; now right|exact E].
        + destruct Hs as [E|(e & I & E)]; [discriminate|].
          right. exists e. split; [apply in_or_app; now left|exact E]. }
    pose proof (exec_body_keeps_levels body
                  (with_levels self (_levels self ++ [label]))) as K.
    specialize (B (with_levels self (_levels self ++ [label]))).
    unfold cd.
    destruct (exec_body body (with_levels self (_levels self ++ [label])))
      as [after r].
    cbn [fst snd with_levels _levels] in *.
    rewrite K, pop_app, String.eqb_refl. exact B.
Qed.

(** A program of assignments, lookups, results, raises and [with
    debug.cd(...)] blocks, nested at will, leaves the scope stack as it
    found it, and ends normally or with an exception that one of its own
    [raise] statements names: the exits of its blocks never raise. *)
Theorem program_keeps_scopes_and_raises_its_own (prog : list stmt) self :
  _levels (fst (exec_body prog self)) = _levels self /\
  (snd (exec_body prog self) = Ok tt \/
   exists e, In e (flat_map raised prog) /\
             snd (exec_body prog self) = Raise e).
Proof.
  split; [apply exec_body_keeps_levels|].
  revert self. induction prog as [|s b IH]; intros self;
    cbn [exec_body flat_map].
  - now left.
  - pose proof (exec_outcome s self) as Hs.
    destruct (exec s self) as [c' [u|e']]; cbn [snd] in *.
    + destruct (IH c') as [E|(e & I & E)]; [now left|].
      right. exists e. split; [apply in_or_app; now right|exact E].
    + destruct Hs as [E|(e & I & E)]; [discriminate|].
      right. exists e. split; [apply in_or_app; now left|exact E].
Qed.

Lemma with_levels_same c : with_levels c (_levels c) = c.
Proof. now destruct c. Qed.

Lemma with_levels_twice c l l' :
  with_levels (with_levels c l) l' = with_levels c l'.
Proof. reflexivity. Qed.

(** A body inside nested scopes runs with their labels pushed, outermost
    first, and the stack is as before afterwards. *)
Lemma exec_nest labels :
  forall self body,
    exec_body (nest labels body) self =
    let (c, r) := exec_body body
                    (with_levels self (_levels self ++ labels)) in
    (with_levels c (_levels self), r).
Proof.
  induction labels as [|l labels IH]; intros self body; cbn [nest].
  - rewrite app_nil_r, with_levels_same.
    pose proof (exec_body_keeps_levels body self) as K.
    destruct (exec_body body self) as [c r]. cbn [fst] in K.
    now rewrite <- K, with_levels_same.
  - cbn [exec_body].
    change (exec (WithCd l (nest labels body)) self)
      with (cd self l (exec_body (nest labels body))).
    unfold cd. rewrite IH. cbn [_levels with_levels].
    rewrite <- app_assoc. cbn [app].
    destruct (exec_body body _) as [c r]. cbn [_levels with_levels].
    rewrite pop_app, String.eqb_refl.
    destruct r as [[]|e]; reflexivity.
Qed.

(** An assignment inside nested scopes stores under the labels of all open
    scopes, outermost first, and the key, joined by dots; a tensor is stored
    detached and on the host; the scope stack is as before afterwards. *)
Theorem assignment_in_nested_scopes self labels k val :
  cls self = DebugContainer ->
  labels <> [] ->
  exec_body (nest labels [Assign k val]) self =
    (with_data self
       (dict_set (KStr (join (_levels self ++ labels ++ [str k])))
          (stored val) (data self)),
     Ok tt).
Proof.
  intros C N. rewrite exec_nest. cbn [exec_body exec].
  rewrite setitem_DebugContainer by exact C.
  unfold _getkey. cbn [_levels with_levels data with_data].
  destruct (_levels self ++ labels)%list as [|a l] eqn:E.
  { apply app_eq_nil in E as [_ E]. contradiction. }
  rewrite <- E, <- app_assoc.
  destruct self as [c d lv]. cbn. destruct k; reflexivity.
Qed.

(** [with d.cd("outer"): with d.cd("inner"): d["x"] = 7] stores under
    ["outer.inner.x"] and leaves no scope open. *)
Lemma assignment_in_nested_scopes_outer_inner :
  exec_body (nest ["outer"; "inner"] [Assign (KStr "x") (VOther 7)])
    (new DebugContainer) =
    ({| cls := DebugContainer;
        data := [(KStr "outer.inner.x", VOther 7)];
        _levels := [] |}, Ok tt).
Proof.
  exact (assignment_in_nested_scopes (new DebugContainer) ["outer"; "inner"]
           (KStr "x") (VOther 7) eq_refl ltac:(discriminate)).
Defined.

End Programs.

(** ** debugged *)

Section Debugged.
Import DebugContainer.

Lemma __getitem___cls self k : cls (fst (__getitem__ self k)) = cls self.
Proof.
  unfold __getitem__. destruct (dict_get _ _); cbn [fst]; [reflexivity|].
  apply __setitem___cls.
Qed.

Lemma exec_keeps_cls s : forall self, cls (fst (exec s self)) = cls self.
Proof.
  induction s as [k val|k|val|e|label body IH] using stmt_nested_ind;
    intros self; cbn [exec fst].
  - apply __setitem___cls.
  - apply __getitem___cls.
  - reflexivity.
  - reflexivity.
  - change (cls (fst (cd self label (exec_body body))) = cls self).
    assert (B : forall c, cls (fst (exec_body body c)) = cls c).
    { induction IH as [|s' b' Hs _ IHb]; intros c; cbn [exec_body fst].
      - reflexivity.
      - specialize (Hs c). destruct (exec s' c) as [c' [u|e']]; cbn [fst] in *.
        + now rewrite IHb.
        + exact Hs. }
    specialize (B (with_levels self (_levels self ++ [label]))).
    unfold cd. destruct (exec_body body _) as [self1 r]. cbn [fst] in B.
    destruct (pop (_levels self1)) as [[rest popped]|]; [|exact B].
    destruct (String.eqb label popped); exact B.
Qed.

Lemma exec_body_keeps_cls body :
  forall self, cls (fst (exec_body body self)) = cls self.
Proof.
  induction body as [|s b IH]; intros self; cbn [exec_body fst].
  - reflexivity.
  - pose proof (exec_keeps_cls s self) as Hs.
    destruct (exec s self) as [c' [u|e']]; cbn [fst] in *.
    + now rewrite IH.
    + exact Hs.
Qed.

(** With no scope open, a key resolves to itself. *)
Lemma _getkey_at_top c k : _levels c = [] -> _getkey c k = k.
Proof. intros L. unfold _getkey. rewrite L. now destruct k. Qed.

Lemma debugged_lookup (func : block) label c :
  func (new DebugContainer) = (c, Ok tt) ->
  _levels c = [] ->
  debugged func label =
    Ok (match dict_get label (data c) with
        | Some v => v
        | None => as_value (new (cls c))
        end).
Proof.
  intros E L. unfold debugged. rewrite E. unfold __getitem__.
  rewrite (_getkey_at_top _ _ L). now destruct (dict_get label (data c)).
Qed.

(** [debugged(func, label)], for a function that runs a program on the
    container: when the program ends normally, the call returns the entry
    that the program left under [label], read as a key with no scope open
    (an integer label as an integer key), or a new empty [DebugContainer]
    when there is none; when the program raises, so does the call. *)
Theorem debugged_returns_the_entry (prog : list stmt) (label : key) c r :
  exec_body prog (new DebugContainer) = (c, r) ->
  debugged (exec_body prog) label =
    match r with
    | Ok _ =>
        Ok (match dict_get label (data c) with
            | Some v => v
            | None => as_value (new DebugContainer)
            end)
    | Raise e => Raise e
    end.
Proof.
  intros E. destruct r as [[]|e].
  - pose proof (exec_body_keeps_levels prog (new DebugContainer)) as L.
    pose proof (exec_body_keeps_cls prog (new DebugContainer)) as C.
    rewrite E in L, C. cbn [fst new _levels cls] in L, C.
    rewrite (debugged_lookup _ label c E L). now rewrite C.
  - unfold debugged. now rewrite E.
Qed.

Lemma debugged_returns_the_entry_x :
  debugged (exec_body [Assign (KStr "x") (VOther 7); Assign (KInt 3) (VOther 8)])
    (KInt 3) = Ok (VOther 8) /\
  debugged (exec_body [Assign (KStr "x") (VOther 7)]) (KStr "y") =
    Ok (as_value (new DebugContainer)) /\
  debugged (exec_body [RaiseStmt TypeError]) (KStr "x") = Raise TypeError.
Proof.
  split; [|split].
  - exact (debugged_returns_the_entry
             [Assign (KStr "x") (VOther 7); Assign (KInt 3) (VOther 8)]
             (KInt 3) _ _ eq_refl).
  - exact (debugged_returns_the_entry
             [Assign (KStr "x") (VOther 7)] (KStr "y") _ _ eq_refl).
  - exact (debugged_returns_the_entry
             [RaiseStmt TypeError] (KStr "x") _ _ eq_refl).
Defined.

(** [debugged(func, label)] returns what the function recorded with
    [result] at the end of its scope [label]:
    [with debug.cd(label): body; debug.result(v)], for a body that ends
    normally, makes the call return [v], as it was given to [result]. *)
Theorem debugged_returns_the_result_of_the_scope label body v :
  snd (exec_body body (with_levels (new DebugContainer) [label])) = Ok tt ->
  debugged (exec_body [WithCd label (body ++ [Result v])]) (KStr label) = Ok v.
Proof.
  intros B.
  pose proof (exec_body_keeps_levels body
                (with_levels (new DebugContainer) [label])) as L.
  destruct (exec_body body (with_levels (new DebugContainer) [label]))
    as [c1 r] eqn:E.
  cbn [fst snd _levels with_levels] in *. subst r.
  assert (R : exec_body [WithCd label (body ++ [Result v])]
                (new DebugContainer) =
              (with_levels
                 (UserDict__setitem__ c1 (KStr label) v) [], Ok tt)).
  { cbn [exec_body].
    change (exec (WithCd label (body ++ [Result v])) (new DebugContainer))
      with (cd (new DebugContainer) label (exec_body (body ++ [Result v]))).
    unfold cd. cbn [new _levels app].
    change (with_levels {| cls := DebugContainer; data := []; _levels := [] |}
              [label]) with (with_levels (new DebugContainer) [label]).
    rewrite exec_body_app, E. cbn [exec_body exec result fst].
    rewrite L. cbn [join String.concat UserDict__setitem__ with_data _levels].
    rewrite L. change (pop [label]) with (Some (@nil string, label)).
    cbv beta iota. now rewrite String.eqb_refl. }
  rewrite (debugged_lookup _ (KStr label) _ R eq_refl).
  cbn [data with_levels UserDict__setitem__ with_data].
  now rewrite dict_get_set_same.
Qed.

(** The result of the scope [energy] is a tensor of a graph: the call
    returns it as it is. *)
Lemma debugged_returns_the_result_of_the_scope_energy :
  debugged
    (exec_body
       [WithCd "energy"
          ([Assign (KStr "x") (VOther 1)] ++
           [Result (VTensor {| numbers := [2%Z]; in_graph := true;
                               where_ := CUDA 0 |})])])
    (KStr "energy") =
  Ok (VTensor {| numbers := [2%Z]; in_graph := true; where_ := CUDA 0 |}).
Proof.
  exact (debugged_returns_the_result_of_the_scope "energy"
           [Assign (KStr "x") (VOther 1)] _ eq_refl).
Defined.

(** Lookup of a missing key with no scope open, on a new container. *)
Lemma getitem_vivifies_at_top_x :
  exists self',
    __getitem__ (new DebugContainer) (KStr "x") =
      (self', as_value (new DebugContainer)) /\
    dict_get (KStr "x") (data self') = Some (as_value (new DebugContainer)) /\
    __getitem__ self' (KStr "x") = (self', as_value (new DebugContainer)).
Proof.
  exact (getitem_vivifies_at_top (new DebugContainer) (KStr "x")
           eq_refl eq_refl eq_refl).
Defined.

(** Two assignments and a lookup on [NULL_DEBUG]. *)
Lemma null_debug_discards_assignments_xy :
  exec_body [Assign (KStr "x") (VOther 1); Lookup (KStr "y");
             Assign (KInt 2) (VOther 3)] (new _NullDebug) =
    (new _NullDebug, Ok tt) /\
  forall k, __getitem__ (new _NullDebug) k =
            (new _NullDebug, as_value (new _NullDebug)).
Proof.
  apply null_debug_discards_assignments; try reflexivity.
  repeat constructor.
Defined.

End Debugged.

(** ** The helpers on tensors: batches *)

Section Batches.
Import Torch.
Context {A B : Type}.

Lemma additive_nil (func : list A -> list B) :
  (forall a b, func (a ++ b)%list = (func a ++ func b)%list) -> func [] = [].
Proof.
  intros H. specialize (H [] []). cbn [app] in H.
  apply (f_equal (@List.length B)) in H. rewrite length_app in H.
  destruct (func []); [reflexivity|cbn in H; lia].
Qed.

Lemma concat_map_additive (func : list A -> list B) batches :
  (forall a b, func (a ++ b)%list = (func a ++ func b)%list) ->
  List.concat (map func batches) = func (List.concat batches).
Proof.
  intros H. induction batches as [|b bs IH]; cbn [map List.concat].
  - symmetry. now apply additive_nil.
  - now rewrite H, IH.
Qed.

(** Batching is transparent for a function that works row by row: for a
    function that maps a concatenation to the concatenation of the results,
    [batch_eval] over at least one batch returns what the function returns
    on all the rows at once. *)
Theorem batch_eval_is_func_of_all_rows (func : list A -> list B) batches :
  (forall a b, func (a ++ b)%list = (func a ++ func b)%list) ->
  batches <> [] ->
  batch_eval func batches = Returns (func (List.concat batches)).
Proof.
  intros H N. unfold batch_eval, cat.
  destruct batches as [|b bs]; [congruence|].
  cbn [map]. rewrite <- (concat_map_additive func (b :: bs) H). reflexivity.
Qed.

End Batches.

Section BatchesExample.
Import Torch.

(** Doubling every element, over two batches. *)
Lemma batch_eval_is_func_of_all_rows_double :
  batch_eval (map (fun z => 2 * z)%Z) [[1; 2]; [3]]%Z = Returns [2; 4; 6]%Z.
Proof.
  exact (batch_eval_is_func_of_all_rows
           (map (fun z => 2 * z)%Z) [[1; 2]; [3]]%Z
           (fun a b => map_app _ a b) ltac:(discriminate)).
Defined.

End BatchesExample.

Section BatchesOfTuples.
Import Torch.
Context {A B : Type}.

Lemma combine_of_maps {X Y Z : Type} (f : X -> Y) (g : X -> Z) l :
  combine (map f l) (map g l) = map (fun x => (f x, g x)) l.
Proof. induction l as [|x l IH]; cbn; [reflexivity|now rewrite IH]. Qed.

Lemma nth_seq_all {X : Type} (t : list X) (d : X) :
  map (fun i => nth i t d) (seq 0 (List.length t)) = t.
Proof.
  induction t as [|x t IH]; cbn [List.length seq map nth]; [reflexivity|].
  f_equal. rewrite <- seq_shift, map_map. exact IH.
Qed.

(** The tuples of as many elements each, turned around. *)
Lemma zip_star_columns {X : Type} (d : X) n (tuples : list (list X)) :
  tuples <> [] ->
  (forall t, In t tuples -> List.length t = n) ->
  zip_star tuples = map (fun i => map (fun t => nth i t d) tuples) (seq 0 n).
Proof.
  induction tuples as [|t ts IH]; intros N L; [congruence|].
  destruct ts as [|t' ts].
  - cbn [zip_star map]. rewrite <- (L t (or_introl eq_refl)).
    rewrite <- (nth_seq_all t d) at 1. now rewrite map_map.
  - change (zip_star (t :: t' :: ts))
      with (map (fun p => fst p :: snd p) (combine t (zip_star (t' :: ts)))).
    rewrite IH; [|discriminate|intros u I; apply L; now right].
    rewrite <- (nth_seq_all t d) at 1. rewrite (L t (or_introl eq_refl)).
    rewrite combine_of_maps, map_map. reflexivity.
Qed.

Lemma cat_each_columns {I : Type} (col : I -> list (list B)) (l : list I) :
  (forall i, col i <> []) ->
  cat_each (map col l) = Returns (map (fun i => List.concat (col i)) l).
Proof.
  intros N. induction l as [|i l IH]; cbn [map cat_each]; [reflexivity|].
  rewrite IH. unfold cat. specialize (N i). now destruct (col i).
Qed.

(** [batch_eval_tuple] concatenates output by output: for a function that
    returns [n] tensors on every batch, over at least one batch, the call
    returns [n] tensors, and the one at place [i] is the concatenation over
    the batches of the function's outputs at place [i].  With no batch at
    all the call returns the empty tuple and does not raise. *)
Theorem batch_eval_tuple_is_output_by_output
    (func : list A -> list (list B)) batches n :
  (forall b, In b batches -> List.length (func b) = n) ->
  (batches <> [] ->
     batch_eval_tuple func batches =
       Returns (map (fun i =>
                       List.concat (map (fun b => nth i (func b) []) batches))
                  (seq 0 n))) /\
  (batches = [] -> batch_eval_tuple func batches = Returns []).
Proof.
  intros L. split.
  - intros N. unfold batch_eval_tuple.
    rewrite (zip_star_columns [] n).
    + rewrite (cat_each_columns
                 (fun i => map (fun t => nth i t []) (map func batches))).
      * f_equal. apply map_ext. intros i. now rewrite map_map.
      * intros i. destruct batches; [congruence|discriminate].
    + destruct batches; [congruence|discriminate].
    + intros t I. apply in_map_iff in I as (b & <- & I). now apply L.
  - now intros ->.
Qed.

End BatchesOfTuples.

Section BatchesOfTuplesExample.
Import Torch.

(** A function that returns its batch and the batch doubled. *)
Lemma batch_eval_tuple_is_output_by_output_pair :
  batch_eval_tuple (fun b => [b; map (fun z => 2 * z)%Z b]) [[1; 2]; [3]]%Z =
    Returns [[1; 2; 3]; [2; 4; 6]]%Z.
Proof.
  exact (proj1 (batch_eval_tuple_is_output_by_output
                  (fun b => [b; map (fun z => 2 * z)%Z b]) [[1; 2]; [3]]%Z 2
                  (fun b _ => eq_refl))
           ltac:(discriminate)).
Defined.

End BatchesOfTuplesExample.

(** ** The helpers on tensors: masks *)

Section Masks.
Import Torch.
Context {A : Type}.

Lemma select_map {X : Type} (f : X -> A) mask (x : list X) :
  select mask (map f x) = map f (select mask x).
Proof.
  revert x. induction mask as [|m mask IH]; intros [|a x]; cbn; try reflexivity.
  destruct m; cbn; now rewrite IH.
Qed.

(** Assigning under a mask what was read under the same mask. *)
Lemma scatter_select mask : forall x y : list A,
  List.length x = List.length mask -> List.length y = List.length mask ->
  scatter mask x (select mask y) = blend mask x y.
Proof.
  induction mask as [|m mask IH]; intros [|a x] [|b y] Lx Ly;
    cbn in Lx, Ly; try discriminate; cbn [scatter select blend];
    try reflexivity.
  destruct m; f_equal; apply IH; lia.
Qed.

Lemma blend_length mask : forall x y : list A,
  List.length (blend mask x y) = List.length x.
Proof.
  induction mask as [|m mask IH]; intros [|a x] [|b y]; cbn; try reflexivity.
  now rewrite IH.
Qed.

Lemma assign_loop_ok (where_ : list bool) :
  forall pairs : list (list A * list A),
    (forall p, In p pairs ->
       List.length (fst p) = List.length where_ /\
       List.length (snd p) = List.length where_) ->
    assign_loop pairs where_ =
      (map (fun p => blend where_ (fst p) (snd p)) pairs, Ok tt).
Proof.
  induction pairs as [|[x y] pairs IH]; intros L; cbn [assign_loop map].
  - reflexivity.
  - destruct (L (x, y) (or_introl eq_refl)) as [Lx Ly]. cbn [fst snd] in *.
    rewrite Lx, Ly, Nat.eqb_refl. cbn [negb].
    rewrite IH by (intros p I; apply L; now right).
    now rewrite scatter_select.
Qed.

(** [assign_where] on distinct tensors of one dimension under a boolean mask
    as long as each of them: every tensor of [xs] gets the elements of its partner in
    [ys] where the mask is true and keeps its own elsewhere, so it keeps its
    length, and the call returns.  Lists of different lengths fail the
    assertion and nothing is assigned. *)
Theorem assign_where_blends (xs ys : list (list A)) (where_ : list bool) :
  (List.length xs = List.length ys ->
   (forall x, In x xs -> List.length x = List.length where_) ->
   (forall y, In y ys -> List.length y = List.length where_) ->
   assign_where xs ys where_ =
     (map (fun p => blend where_ (fst p) (snd p)) (combine xs ys), Ok tt) /\
   map (@List.length A) (fst (assign_where xs ys where_)) =
     map (@List.length A) xs) /\
  (List.length xs <> List.length ys ->
   assign_where xs ys where_ = (xs, Raise AssertionError)).
Proof.
  split.
  - intros L Lx Ly. unfold assign_where. rewrite L, Nat.eqb_refl. cbn [negb].
    assert (E : assign_loop (combine xs ys) where_ =
                (map (fun p => blend where_ (fst p) (snd p)) (combine xs ys),
                 Ok tt)).
    { apply assign_loop_ok. intros [x y] I. cbn [fst snd]. split.
      - apply Lx. eapply in_combine_l; eauto.
      - apply Ly. eapply in_combine_r; eauto. }
    rewrite E. split; [reflexivity|]. cbn [fst].
    rewrite map_map. clear - L.
    revert ys L. induction xs as [|x xs IH]; intros [|y ys] L;
      cbn in L; try discriminate; cbn [combine map fst snd]; [reflexivity|].
    rewrite blend_length. f_equal. apply IH. lia.
  - intros N. unfold assign_where.
    apply Nat.eqb_neq in N. now rewrite N.
Qed.

End Masks.

Section MasksExample.
Import Torch.

Lemma assign_where_blends_two :
  assign_where [[1; 2; 3]; [4; 5; 6]]%Z [[7; 8; 9]; [0; 0; 0]]%Z
    [true; false; true] =
    ([[7; 2; 9]; [0; 5; 0]]%Z, Ok tt).
Proof.
  apply (proj1 (assign_where_blends
                  [[1; 2; 3]; [4; 5; 6]]%Z [[7; 8; 9]; [0; 0; 0]]%Z
                  [true; false; true])); try reflexivity.
  - intros x [<-|[<-|[]]]; reflexivity.
  - intros y [<-|[<-|[]]]; reflexivity.
Defined.

End MasksExample.

(** ** The helpers on tensors: integer powers *)

Section Powers.
Import Torch.
Context {A : Type}.
Variable pow : A -> Z -> A.
Variable allows : Z -> bool.
Variable zero : A.

Lemma insert_unique_In a e sorted :
  In a (insert_unique e sorted) <-> a = e \/ In a sorted.
Proof.
  induction sorted as [|e' sorted IH]; cbn.
  - intuition.
  - destruct (Z.ltb e e'); [cbn; intuition|].
    destruct (Z.eqb e e') eqn:E.
    + apply Z.eqb_eq in E. subst e'. cbn. intuition.
    + cbn. rewrite IH. intuition.
Qed.

(** [unique] keeps every value, and brings in none. *)
Lemma unique_In a exps : In a (unique exps) <-> In a exps.
Proof.
  induction exps as [|e exps IH]; cbn; [tauto|].
  rewrite insert_unique_In, IH. intuition.
Qed.

Lemma forallb_unique exps :
  forallb allows (unique exps) = forallb allows exps.
Proof.
  apply eq_true_iff_eq. rewrite !forallb_forall.
  split; intros H e I; apply H; now apply unique_In.
Qed.

(** The loop goes through when the dtype takes every exponent, and is the
    chain of its assignments then; one exponent that is not taken ends it
    with [RuntimeError]. *)
Lemma pow_int_loop_allowed xe exps (u : list Z) : forall zs,
  forallb allows u = true ->
  pow_int_loop pow allows xe exps u zs =
    Returns (fold_left (pow_int_step pow xe exps) u zs).
Proof.
  induction u as [|exp u IH]; intros zs F; [reflexivity|].
  cbn [forallb] in F. apply andb_true_iff in F as [Fe Fu].
  cbn [pow_int_loop fold_left]. rewrite Fe. now apply IH.
Qed.

Lemma pow_int_loop_refused xe exps (u : list Z) : forall zs,
  forallb allows u = false ->
  pow_int_loop pow allows xe exps u zs = Raises RuntimeError.
Proof.
  induction u as [|exp u IH]; intros zs F; [discriminate|].
  cbn [forallb] in F. cbn [pow_int_loop].
  destruct (allows exp); [|reflexivity]. now apply IH.
Qed.

(** One assignment of the loop, element by element. *)
Lemma pow_int_step_cons x xs e exps z zs exp :
  pow_int_step pow (x :: xs) (e :: exps) (z :: zs) exp =
    (if Z.eqb e exp then pow x exp else z) ::
    pow_int_step pow xs exps zs exp.
Proof.
  unfold pow_int_step. cbn [map select scatter].
  destruct (Z.eqb e exp); reflexivity.
Qed.

Lemma pow_int_fold_nil (u : list Z) :
  fold_left (pow_int_step pow [] []) u [] = [].
Proof. induction u as [|exp u IH]; cbn; [reflexivity|exact IH]. Qed.

Lemma pow_int_fold_cons x xs e exps (u : list Z) : forall z zs,
  fold_left (pow_int_step pow (x :: xs) (e :: exps)) u (z :: zs) =
    fold_left (fun z exp => if Z.eqb e exp then pow x exp else z) u z ::
    fold_left (pow_int_step pow xs exps) u zs.
Proof.
  induction u as [|exp u IH]; intros z zs; cbn [fold_left]; [reflexivity|].
  now rewrite pow_int_step_cons, IH.
Qed.

(** An element whose exponent the loop has met holds its power for good. *)
Lemma pow_int_element_set x e (u : list Z) :
  fold_left (fun z exp => if Z.eqb e exp then pow x exp else z) u (pow x e) =
    pow x e.
Proof.
  induction u as [|exp u IH]; cbn [fold_left]; [reflexivity|].
  destruct (Z.eqb e exp) eqn:E; [|exact IH].
  apply Z.eqb_eq in E. subst exp. exact IH.
Qed.

Lemma pow_int_element x e (u : list Z) : forall z,
  In e u ->
  fold_left (fun z exp => if Z.eqb e exp then pow x exp else z) u z =
    pow x e.
Proof.
  induction u as [|exp u IH]; intros z I; [destruct I|].
  cbn [fold_left]. destruct (Z.eqb e exp) eqn:E.
  - apply Z.eqb_eq in E. subst exp. apply pow_int_element_set.
  - apply IH. destruct I as [->|I]; [|exact I].
    now rewrite Z.eqb_refl in E.
Qed.

Lemma pow_int_fold (u : list Z) : forall exps xs,
  (forall e, In e exps -> In e u) ->
  List.length xs = List.length exps ->
  fold_left (pow_int_step pow xs exps) u (repeat zero (List.length exps)) =
    map (fun p => pow (fst p) (snd p)) (combine xs exps).
Proof.
  induction exps as [|e exps IH]; intros [|x xs] I L; cbn in L;
    try discriminate.
  - apply pow_int_fold_nil.
  - cbn [List.length repeat combine map fst snd].
    rewrite pow_int_fold_cons, pow_int_element by (apply I; now left).
    f_equal. apply IH; [|lia]. intros e' I'. apply I. now right.
Qed.

Lemma combine_repeat (x : A) (exps : list Z) :
  map (fun p => pow (fst p) (snd p))
      (combine (repeat x (List.length exps)) exps) = map (pow x) exps.
Proof.
  induction exps as [|e exps IH]; cbn; [reflexivity|]. now rewrite IH.
Qed.

(** [pow_int] on tensors of one dimension, for a dtype that takes every
    exponent of [exps], gives element by element the element of [xs] to the
    power of its exponent: the zeros the result starts from are all
    overwritten, whatever the order and the repetitions of the exponents,
    and a tensor [xs] of one element is used for every exponent.  An
    exponent that the dtype does not take, as a negative one for a dtype of
    integers, makes the call raise [RuntimeError], and so does a tensor [xs]
    of any other length than one and that of [exps]. *)
Theorem pow_int_is_elementwise (xs : list A) (exps : list Z) :
  (forallb allows exps = true ->
   (List.length xs = List.length exps ->
    pow_int pow allows zero xs exps =
      Returns (map (fun p => pow (fst p) (snd p)) (combine xs exps))) /\
   (forall x, pow_int pow allows zero [x] exps =
                Returns (map (pow x) exps))) /\
  (forallb allows exps = false ->
   pow_int pow allows zero xs exps = Raises RuntimeError) /\
  (List.length xs <> List.length exps -> List.length xs <> 1 ->
   pow_int pow allows zero xs exps = Raises RuntimeError).
Proof.
  assert (U : forall e, In e exps -> In e (unique exps))
    by (intros e; apply unique_In).
  unfold pow_int. rewrite repeat_length. split; [|split].
  - intros F. rewrite <- forallb_unique in F. split.
    + intros L. unfold expand_as. rewrite L, Nat.eqb_refl.
      rewrite pow_int_loop_allowed by exact F. now rewrite pow_int_fold.
    + intros x. unfold expand_as.
      destruct (Nat.eqb (List.length [x]) (List.length exps)) eqn:E.
      * apply Nat.eqb_eq in E.
        rewrite pow_int_loop_allowed by exact F.
        rewrite pow_int_fold by (auto; congruence).
        destruct exps as [|e [|e' exps']]; cbn in E; try discriminate.
        reflexivity.
      * rewrite pow_int_loop_allowed by exact F.
        rewrite pow_int_fold by (auto; apply repeat_length).
        now rewrite combine_repeat.
  - intros F. rewrite <- forallb_unique in F.
    destruct (expand_as xs (List.length exps)) as [xe|e] eqn:E.
    + now apply pow_int_loop_refused.
    + unfold expand_as in E.
      destruct (Nat.eqb (List.length xs) (List.length exps));
        [discriminate|].
      destruct xs as [|x [|x' xs']]; try discriminate; now injection E as <-.
  - intros N N1. unfold expand_as. apply Nat.eqb_neq in N. rewrite N.
    destruct xs as [|x [|x' xs']]; try reflexivity. now destruct N1.
Qed.

End Powers.

Section PowersExample.
Import Torch.

(** A tensor of dtype [torch.int64]: powers that the dtype has, and a
    negative exponent. *)
Lemma pow_int_is_elementwise_232 :
  pow_int int64_pow int64_allows 0%Z [2; 3; 5]%Z [3; 0; 3]%Z =
    Returns [8; 1; 125]%Z /\
  pow_int int64_pow int64_allows 0%Z [2]%Z [3; 0; 62; 63; 64]%Z =
    Returns [8; 1; 4611686018427387904; -9223372036854775808; 0]%Z /\
  pow_int int64_pow int64_allows 0%Z [2; 3; 5]%Z [3; -1; 3]%Z =
    Raises RuntimeError.
Proof.
  split; [|split].
  - apply (proj1 (proj1 (pow_int_is_elementwise int64_pow int64_allows 0%Z
                           [2; 3; 5]%Z [3; 0; 3]%Z) eq_refl)).
    reflexivity.
  - exact (proj2 (proj1 (pow_int_is_elementwise int64_pow int64_allows 0%Z
                           [2]%Z [3; 0; 62; 63; 64]%Z) eq_refl) 2%Z).
  - exact (proj1 (proj2 (pow_int_is_elementwise int64_pow int64_allows 0%Z
                           [2; 3; 5]%Z [3; -1; 3]%Z)) eq_refl).
Defined.

End PowersExample.
